(** * k8s-cli: the dashboard's model (internal/model/model.go)

  A shallow embedding of the Bubble Tea model of the terminal dashboard:
  the [Model] struct, its constructor [New], [Init], the [Update]
  function that interprets key presses and the completion messages of the
  asynchronous cluster reads, and [View].  Commands ([tea.Cmd]) are
  closures in the Go source; here they are data, so that "which fetch was
  scheduled" can be stated and computed.  The listing functions of
  package resources ([GetPods], [GetServices], [FormatPortsForDisplay])
  and [GetNamespaces] of package client are embedded as functions of what
  the cluster API returned. *)

From stdpp Require Import base list strings gmap relations pretty.
From Stdlib Require Import ZArith Lia.

Local Open Scope Z_scope.

(** ** Package resources (internal/resources/types.go) *)

Module resources.

(** [type ViewType string] with exactly four constants; the model only ever
    stores one of the four. *)
Inductive ViewType : Set :=
| PodView        (* "pods" *)
| ServiceView    (* "services" *)
| DetailView     (* "detail" *)
| NamespaceView  (* "namespaces" *).

(** Projections are global names here, so the fields the three structs
    share ([Name], [Namespace], [Age], [Type]) carry a prefix outside
    [PodInfo]. *)
Record ContainerInfo : Type := mkContainerInfo {
  cName : string;
  Image : string;
  Ready : bool;
  RestartCount : Z;
  State : string;
  CPURequest : string;
  MemoryRequest : string;
  CPULimit : string;
  MemoryLimit : string;
  EnvironmentVars : gmap string string
}.

(** [Created] is a [time.Time]; it is carried around, never inspected by
    the model, and stands here as a number of nanoseconds. *)
Record PodInfo : Type := mkPodInfo {
  Name : string;
  Namespace : string;
  Status : string;
  Age : string;
  IP : string;
  Node : string;
  Created : Z;
  Labels : gmap string string;
  Containers : list ContainerInfo
}.

Record ServiceInfo : Type := mkServiceInfo {
  sName : string;
  sNamespace : string;
  sType : string;
  ClusterIP : string;
  ExternalIP : string;
  Ports : string;
  sAge : string;
  Selector : gmap string string
}.

Record ResourceData : Type := mkResourceData {
  Pods : list PodInfo;
  Services : list ServiceInfo
}.

(** The zero value [ResourceData{}]: both slices nil. *)
Definition zero : ResourceData := mkResourceData [] [].

(** *** Formatting of service ports (types.go) *)

Module ServicePort.
Record t : Type := mk {
  Name : string;
  Protocol : string;
  Port : Z;          (* int32 *)
  TargetPort : Z;    (* int32 *)
  NodePort : Z       (* int32 *)
}.
End ServicePort.

(** The loop of [FormatPortsForDisplay], at index [i] with [result] built so
    far; [%d] is the decimal text of the integer. *)
Fixpoint FormatPorts_loop (i : Z) (ports : list ServicePort.t) (result : string) : string :=
  match ports with
  | [] => result
  | port :: rest =>
      let result := if 0 <? i then result +:+ ", " else result in
      let result :=
        if 0 <? ServicePort.NodePort port then
          result +:+ (pretty (ServicePort.Port port) +:+ ":"
                      +:+ pretty (ServicePort.NodePort port) +:+ "/"
                      +:+ ServicePort.Protocol port)
        else
          result +:+ (pretty (ServicePort.Port port) +:+ "/"
                      +:+ ServicePort.Protocol port) in
      FormatPorts_loop (i + 1) rest result
  end.

Definition FormatPortsForDisplay (ports : list ServicePort.t) : string :=
  if Z.of_nat (length ports) =? 0 then "" else FormatPorts_loop 0 ports "".

(** What one port contributes to the text. *)
Definition port_text (port : ServicePort.t) : string :=
  if 0 <? ServicePort.NodePort port then
    pretty (ServicePort.Port port) +:+ ":" +:+ pretty (ServicePort.NodePort port)
    +:+ "/" +:+ ServicePort.Protocol port
  else
    pretty (ServicePort.Port port) +:+ "/" +:+ ServicePort.Protocol port.

(** *** The Kubernetes objects the listing functions read

    The types of k8s.io/api/core/v1, cut down to the fields that [GetPods]
    and [GetServices] read.  A pointer field is an [option]; a
    [resource.Quantity] stands for the text its [String()] gives, which is
    all the code takes from it; a time is a number of nanoseconds. *)

Module corev1.

Definition ServiceTypeNodePort : string := "NodePort".
Definition ServiceTypeLoadBalancer : string := "LoadBalancer".
Definition ResourceCPU : string := "cpu".
Definition ResourceMemory : string := "memory".

Definition Quantity : Type := string.

(** [ResourceList] is a map; the code tests it against nil. *)
Definition ResourceList : Type := option (gmap string Quantity).

(** [corev1.Namespace]; the name [Namespace] is a field of [PodInfo] here. *)
Record NamespaceObj : Type := mkNamespace { Namespace_Name : string }.

Record ServicePort : Type := mkServicePort {
  ServicePort_Name : string;
  ServicePort_Protocol : string;
  ServicePort_Port : Z;
  ServicePort_TargetPort_IntVal : Z;
  ServicePort_NodePort : Z
}.

Record LoadBalancerIngress : Type := mkLoadBalancerIngress {
  Ingress_IP : string;
  Ingress_Hostname : string
}.

Record Service : Type := mkService {
  Service_Name : string;
  Service_Namespace : string;
  Service_CreationTimestamp : Z;
  Service_Type : string;                       (* Spec.Type *)
  Service_ClusterIP : string;                  (* Spec.ClusterIP *)
  Service_Ports : list ServicePort;            (* Spec.Ports *)
  Service_Selector : gmap string string;       (* Spec.Selector *)
  Service_Ingress : list LoadBalancerIngress   (* Status.LoadBalancer.Ingress *)
}.

Record ContainerStateRunning : Type := mkRunning { StartedAt : Z }.
Record ContainerStateWaiting : Type := mkWaiting {
  Waiting_Reason : string; Waiting_Message : string }.
Record ContainerStateTerminated : Type := mkTerminated {
  Terminated_Reason : string; Terminated_Message : string }.

Record ContainerState : Type := mkContainerState {
  Running : option ContainerStateRunning;
  Waiting : option ContainerStateWaiting;
  Terminated : option ContainerStateTerminated
}.

Record ContainerStatus : Type := mkContainerStatus {
  ContainerStatus_Name : string;
  ContainerStatus_Ready : bool;
  ContainerStatus_RestartCount : Z;            (* int32 *)
  ContainerStatus_State : ContainerState
}.

Record EnvVarSource : Type := mkEnvVarSource {
  ConfigMapKeyRef : option (string * string);  (* name, key *)
  SecretKeyRef : option (string * string);     (* name, key *)
  FieldRef : option string                     (* field path *)
}.

Record EnvVar : Type := mkEnvVar {
  EnvVar_Name : string;
  EnvVar_Value : string;
  EnvVar_ValueFrom : option EnvVarSource
}.

Record Container : Type := mkContainer {
  Container_Name : string;
  Container_Image : string;
  Container_Requests : ResourceList;           (* Resources.Requests *)
  Container_Limits : ResourceList;             (* Resources.Limits *)
  Container_Env : list EnvVar
}.

Record Pod : Type := mkPod {
  Pod_Name : string;
  Pod_Namespace : string;
  Pod_CreationTimestamp : Z;
  Pod_Labels : gmap string string;
  Pod_NodeName : string;                       (* Spec.NodeName *)
  Pod_Containers : list Container;             (* Spec.Containers *)
  Pod_Phase : string;                          (* Status.Phase *)
  Pod_PodIP : string;                          (* Status.PodIP *)
  Pod_ContainerStatuses : list ContainerStatus (* Status.ContainerStatuses *)
}.

End corev1.

(** *** Listing pods and services (pods.go, services.go) *)

(** [p != nil] for a pointer [p]. *)
Definition non_nil {A : Type} (p : option A) : bool :=
  match p with
  | Some _ => true
  | None => false
  end.

Section Listing.
Import corev1.

(** [FormatDuration(time.Since(t).Round(time.Second))]: the age text of an
    object created at [t].  It depends on the clock and on float64
    arithmetic, and is a parameter here. *)
Variable ageStr : Z -> string.

(** The loop over [pod.Status.ContainerStatuses], which stops at the first
    status that carries the container's name: the values of [ready],
    [state] and [restartCount] after it. *)
Fixpoint container_status (statuses : list ContainerStatus) (name : string)
    : bool * string * Z :=
  match statuses with
  | [] => (false, "", 0)
  | status :: rest =>
      if String.eqb (ContainerStatus_Name status) name then
        (ContainerStatus_Ready status,
         (if non_nil (Running (ContainerStatus_State status)) then "Running"
          else if non_nil (Waiting (ContainerStatus_State status)) then "Waiting"
          else if non_nil (Terminated (ContainerStatus_State status)) then "Terminated"
          else ""),
         ContainerStatus_RestartCount status)
      else container_status rest name
  end.

(** [if l != nil { if q, ok := l[key]; ok { text = q.String() } }], from
    the initial [""]. *)
Definition quantity_text (l : ResourceList) (key : string) : string :=
  match l with
  | Some rl => match rl !! key with
               | Some q => q
               | None => ""
               end
  | None => ""
  end.

(** One pass of the loop over [container.Env]. *)
Definition env_step (envVars : gmap string string) (env : EnvVar) : gmap string string :=
  if negb (String.eqb (EnvVar_Value env) "") then
    <[EnvVar_Name env := EnvVar_Value env]> envVars
  else if non_nil (EnvVar_ValueFrom env) then
    <[EnvVar_Name env := "[from source]"]> envVars
  else envVars.

Definition environment (envs : list EnvVar) : gmap string string :=
  fold_left env_step envs ∅.

(** What one entry of [container.Env] contributes: its literal value, the
    marker for a value taken from elsewhere, or nothing. *)
Definition env_text (env : EnvVar) : option string :=
  if negb (String.eqb (EnvVar_Value env) "") then Some (EnvVar_Value env)
  else if non_nil (EnvVar_ValueFrom env) then Some "[from source]"
  else None.

(** The text of the state of a container status. *)
Definition state_text (status : ContainerStatus) : string :=
  if non_nil (Running (ContainerStatus_State status)) then "Running"
  else if non_nil (Waiting (ContainerStatus_State status)) then "Waiting"
  else if non_nil (Terminated (ContainerStatus_State status)) then "Terminated"
  else "".

(** The body of the loop over [pod.Spec.Containers]. *)
Definition container_info (statuses : list ContainerStatus) (container : Container)
    : ContainerInfo :=
  let '(ready, state, restartCount) :=
    container_status statuses (Container_Name container) in
  {| cName := Container_Name container;
     Image := Container_Image container;
     Ready := ready;
     RestartCount := restartCount;
     State := state;
     CPURequest := quantity_text (Container_Requests container) ResourceCPU;
     MemoryRequest := quantity_text (Container_Requests container) ResourceMemory;
     CPULimit := quantity_text (Container_Limits container) ResourceCPU;
     MemoryLimit := quantity_text (Container_Limits container) ResourceMemory;
     EnvironmentVars := environment (Container_Env container) |}.

(** The body of the loop over [podList.Items]. *)
Definition pod_info (pod : Pod) : PodInfo :=
  let containers :=
    fold_left (fun containers container =>
                 containers ++ [container_info (Pod_ContainerStatuses pod) container])
      (Pod_Containers pod) [] in
  {| Name := Pod_Name pod;
     Namespace := Pod_Namespace pod;
     Status := Pod_Phase pod;
     Age := ageStr (Pod_CreationTimestamp pod);
     IP := Pod_PodIP pod;
     Node := Pod_NodeName pod;
     Created := Pod_CreationTimestamp pod;
     Labels := Pod_Labels pod;
     Containers := containers |}.

(** [GetPods], given what the API call [Pods(namespace).List] returned. *)
Definition GetPods (listed : list Pod * option string) : list PodInfo * option string :=
  match listed.2 with
  | Some err => ([], Some ("error fetching pods: " +:+ err))
  | None =>
      (fold_left (fun pods pod => pods ++ [pod_info pod]) listed.1 [], None)
  end.

(** The block that picks the external address of a service; [GetServices]
    and [GetServiceDetail] both contain it. *)
Definition externalIP_of (svc : Service) : string :=
  let externalIP := "<none>" in
  match Service_Ingress svc with
  | ingress0 :: _ =>
      if negb (String.eqb (Ingress_IP ingress0) "") then Ingress_IP ingress0
      else if negb (String.eqb (Ingress_Hostname ingress0) "") then Ingress_Hostname ingress0
      else externalIP
  | [] =>
      if String.eqb (Service_Type svc) ServiceTypeNodePort
         || String.eqb (Service_Type svc) ServiceTypeLoadBalancer
      then "<pending>"
      else externalIP
  end.

(** The port of the listing that an API port becomes. *)
Definition listed_port (port : ServicePort) : ServicePort.t :=
  ServicePort.mk (ServicePort_Name port) (ServicePort_Protocol port)
    (ServicePort_Port port) (ServicePort_TargetPort_IntVal port)
    (ServicePort_NodePort port).

(** The body of the loop over [serviceList.Items]. *)
Definition service_info (svc : Service) : ServiceInfo :=
  let ports :=
    fold_left (fun ports port =>
                 ports ++ [ServicePort.mk (ServicePort_Name port)
                             (ServicePort_Protocol port)
                             (ServicePort_Port port)
                             (ServicePort_TargetPort_IntVal port)
                             (ServicePort_NodePort port)])
      (Service_Ports svc) [] in
  {| sName := Service_Name svc;
     sNamespace := Service_Namespace svc;
     sType := Service_Type svc;
     ClusterIP := Service_ClusterIP svc;
     ExternalIP := externalIP_of svc;
     Ports := FormatPortsForDisplay ports;
     sAge := ageStr (Service_CreationTimestamp svc);
     Selector := Service_Selector svc |}.

(** [GetServices], given what the API call [Services(namespace).List]
    returned. *)
Definition GetServices (listed : list Service * option string)
    : list ServiceInfo * option string :=
  match listed.2 with
  | Some err => ([], Some ("error fetching services: " +:+ err))
  | None =>
      (fold_left (fun services svc => services ++ [service_info svc]) listed.1 [], None)
  end.

End Listing.

End resources.

(** ** Package client: the handle the fetch commands close over *)

Module client.

(** [*client.K8sClient] is only stored and handed to the commands; the
    pointer is a handle number, and the nil pointer is [None]. *)
Record K8sClient : Set := mkK8sClient { Clientset : nat }.

(** [GetNamespaces], given what the API call [Namespaces().List]
    returned. *)
Definition GetNamespaces (listed : list resources.corev1.NamespaceObj * option string)
    : list string * option string :=
  match listed.2 with
  | Some err => ([], Some ("error fetching namespaces: " +:+ err))
  | None =>
      (fold_left (fun namespaces ns =>
                    namespaces ++ [resources.corev1.Namespace_Name ns])
         listed.1 [], None)
  end.

End client.

(** ** Go runtime pieces the model relies on *)

(** A Go call either returns or panics (slice index out of range). *)
Inductive result (A : Type) : Type :=
| Ok (a : A)
| Panic.
Arguments Ok {A} a.
Arguments Panic {A}.

(** [len(s)] as a Go [int]. *)
Definition len {A : Type} (s : list A) : Z := Z.of_nat (length s).

(** [s[i]] for a slice [s] and an [int] index; out of range is a run-time
    panic. *)
Definition slice_index {A : Type} (s : list A) (i : Z) : result A :=
  if (i <? 0) || (len s <=? i) then Panic
  else match s !! Z.to_nat i with
       | Some x => Ok x
       | None => Panic
       end.

(** A Go [error] value: nil, or an error whose [Error()] text is the string;
  the model only ever formats it with [%v]. *)
Definition goerror : Type := option string.

(** ** Package model (internal/model/model.go) *)

Module model.
Import resources client.

Section Engine.

(** The spinner comes from the Bubbles library, which is outside the
    repository: its model, its tick message, the commands it returns, the
    value built in [New] and its [Update] are parameters of the
    development. *)
Context {spinner_Model spinner_TickMsg spinner_Cmd : Type}.

(** [tea.Msg] is an empty interface; [Update] switches on the dynamic
    type.  [otherMsg] stands for every type the switch does not name. *)
Inductive Msg : Type :=
| KeyMsg (key : string)                       (* tea.KeyMsg, by msg.String() *)
| WindowSizeMsg (Width Height : Z)
| TickMsg (t : spinner_TickMsg)               (* spinner.TickMsg *)
| k8sClientMsg (cl : option K8sClient) (err : goerror)
| contextInfoMsg (ctx : string) (err : goerror)
| namespacesMsg (nss : list string) (err : goerror)
| resourcesMsg (data : ResourceData) (err : goerror)
| podDetailMsg (detail : string) (err : goerror)
| serviceDetailMsg (detail : string) (err : goerror)
| otherMsg (tag : nat).

(** [tea.Cmd]: what the runtime is asked to run.  The nil command is
    [None] of [option Cmd]. *)
#[warnings="-register-all"]
Inductive Cmd : Type :=
| tea_Quit
| spinner_Tick (s : spinner_Model)            (* the method value m.spinner.Tick *)
| spinner_cmd (c : spinner_Cmd)               (* whatever spinner.Update returned *)
| initK8sClient
| getContextInfo (cl : option K8sClient)
| getNamespaces (cl : option K8sClient)
| getResources (cl : option K8sClient) (namespace : string)
| getPodDetail (cl : option K8sClient) (namespace name : string)
| getServiceDetail (cl : option K8sClient) (namespace name : string)
| tea_Batch (cmds : list Cmd).

Variable spinner_New : spinner_Model.
Variable spinner_Update : spinner_Model -> Msg -> spinner_Model * option spinner_Cmd.

Record Model : Type := mkModel {
  (* UI state *)
  spinner : spinner_Model;
  loading : bool;
  currentView : ViewType;
  selectedItem : Z;
  width : Z;
  height : Z;
  message : string;
  error : string;
  (* Data *)
  client : option K8sClient;
  namespaces : list string;
  currentNS : string;
  context : string;
  resourceData : ResourceData;
  detailContent : string
}.

(** Field assignments [m.f = v]. *)
Definition set_spinner (v : spinner_Model) (m : Model) : Model :=
  mkModel v (loading m) (currentView m) (selectedItem m) (width m) (height m)
    (message m) (error m) (client m) (namespaces m) (currentNS m) (context m)
    (resourceData m) (detailContent m).
Definition set_loading (v : bool) (m : Model) : Model :=
  mkModel (spinner m) v (currentView m) (selectedItem m) (width m) (height m)
    (message m) (error m) (client m) (namespaces m) (currentNS m) (context m)
    (resourceData m) (detailContent m).
Definition set_currentView (v : ViewType) (m : Model) : Model :=
  mkModel (spinner m) (loading m) v (selectedItem m) (width m) (height m)
    (message m) (error m) (client m) (namespaces m) (currentNS m) (context m)
    (resourceData m) (detailContent m).
Definition set_selectedItem (v : Z) (m : Model) : Model :=
  mkModel (spinner m) (loading m) (currentView m) v (width m) (height m)
    (message m) (error m) (client m) (namespaces m) (currentNS m) (context m)
    (resourceData m) (detailContent m).
Definition set_size (w h : Z) (m : Model) : Model :=
  mkModel (spinner m) (loading m) (currentView m) (selectedItem m) w h
    (message m) (error m) (client m) (namespaces m) (currentNS m) (context m)
    (resourceData m) (detailContent m).
Definition set_message (v : string) (m : Model) : Model :=
  mkModel (spinner m) (loading m) (currentView m) (selectedItem m) (width m) (height m)
    v (error m) (client m) (namespaces m) (currentNS m) (context m)
    (resourceData m) (detailContent m).
Definition set_error (v : string) (m : Model) : Model :=
  mkModel (spinner m) (loading m) (currentView m) (selectedItem m) (width m) (height m)
    (message m) v (client m) (namespaces m) (currentNS m) (context m)
    (resourceData m) (detailContent m).
Definition set_client (v : option K8sClient) (m : Model) : Model :=
  mkModel (spinner m) (loading m) (currentView m) (selectedItem m) (width m) (height m)
    (message m) (error m) v (namespaces m) (currentNS m) (context m)
    (resourceData m) (detailContent m).
Definition set_namespaces (v : list string) (m : Model) : Model :=
  mkModel (spinner m) (loading m) (currentView m) (selectedItem m) (width m) (height m)
    (message m) (error m) (client m) v (currentNS m) (context m)
    (resourceData m) (detailContent m).
Definition set_currentNS (v : string) (m : Model) : Model :=
  mkModel (spinner m) (loading m) (currentView m) (selectedItem m) (width m) (height m)
    (message m) (error m) (client m) (namespaces m) v (context m)
    (resourceData m) (detailContent m).
Definition set_context (v : string) (m : Model) : Model :=
  mkModel (spinner m) (loading m) (currentView m) (selectedItem m) (width m) (height m)
    (message m) (error m) (client m) (namespaces m) (currentNS m) v
    (resourceData m) (detailContent m).
Definition set_resourceData (v : ResourceData) (m : Model) : Model :=
  mkModel (spinner m) (loading m) (currentView m) (selectedItem m) (width m) (height m)
    (message m) (error m) (client m) (namespaces m) (currentNS m) (context m)
    v (detailContent m).
Definition set_detailContent (v : string) (m : Model) : Model :=
  mkModel (spinner m) (loading m) (currentView m) (selectedItem m) (width m) (height m)
    (message m) (error m) (client m) (namespaces m) (currentNS m) (context m)
    (resourceData m) v.

(** [New]: every field New does not name has its zero value. *)
Definition New : Model :=
  {| spinner := spinner_New;
     loading := true;
     currentView := PodView;
     selectedItem := 0;
     width := 0;
     height := 0;
     message := "Connecting to Kubernetes cluster...";
     error := "";
     client := None;
     namespaces := [];
     currentNS := "default";
     context := "";
     resourceData := resources.zero;
     detailContent := "" |}.

Definition Init (m : Model) : option Cmd :=
  Some (tea_Batch [spinner_Tick (spinner m); initK8sClient]).

(** The statement after the type switch, reached by every case that does
    not return: [m.spinner, cmd = m.spinner.Update(msg); return m, cmd]. *)
Definition spinner_pass (m : Model) (msg : Msg) : result (Model * option Cmd) :=
  let '(s, c) := spinner_Update (spinner m) msg in
  Ok (set_spinner s m, spinner_cmd <$> c).

(** [for i, ns := range namespaces { if ns == cur { selectedItem = i; break } }],
    started at index [i]: the first position holding [cur], if any. *)
Fixpoint range_find (nss : list string) (cur : string) (i : Z) : option Z :=
  match nss with
  | [] => None
  | ns :: rest => if String.eqb ns cur then Some i else range_find rest cur (i + 1)
  end.

(** The [case tea.KeyMsg] arm: a switch on [msg.String()]. *)
Definition Update_key (m : Model) (k : string) : result (Model * option Cmd) :=
  let msg := KeyMsg k in
  if String.eqb k "ctrl+c" || String.eqb k "q" then
    Ok (m, Some tea_Quit)
  else if String.eqb k "p" then
    spinner_pass
      (if negb (loading m) then set_selectedItem 0 (set_currentView PodView m) else m) msg
  else if String.eqb k "s" then
    spinner_pass
      (if negb (loading m) then set_selectedItem 0 (set_currentView ServiceView m) else m) msg
  else if String.eqb k "esc" then
    spinner_pass
      (match currentView m with
       | DetailView => set_currentView PodView m
       | NamespaceView => set_currentView PodView m
       | _ => m
       end) msg
  else if String.eqb k "up" || String.eqb k "k" then
    spinner_pass
      (if negb (loading m) && (0 <? selectedItem m)
       then set_selectedItem (selectedItem m - 1) m else m) msg
  else if String.eqb k "down" || String.eqb k "j" then
    spinner_pass
      (if negb (loading m) then
         match currentView m with
         | PodView =>
             if selectedItem m <? len (Pods (resourceData m)) - 1
             then set_selectedItem (selectedItem m + 1) m else m
         | ServiceView =>
             if selectedItem m <? len (Services (resourceData m)) - 1
             then set_selectedItem (selectedItem m + 1) m else m
         | NamespaceView =>
             if selectedItem m <? len (namespaces m) - 1
             then set_selectedItem (selectedItem m + 1) m else m
         | DetailView => m
         end
       else m) msg
  else if String.eqb k "enter" then
    if negb (loading m) then
      match currentView m with
      | PodView =>
          if 0 <? len (Pods (resourceData m)) then
            let m := set_loading true (set_currentView DetailView m) in
            match slice_index (Pods (resourceData m)) (selectedItem m) with
            | Panic => Panic
            | Ok selectedPod =>
                Ok (m, Some (tea_Batch
                       [spinner_Tick (spinner m);
                        getPodDetail (client m) (Namespace selectedPod) (Name selectedPod)]))
            end
          else spinner_pass m msg
      | ServiceView =>
          if 0 <? len (Services (resourceData m)) then
            let m := set_loading true (set_currentView DetailView m) in
            match slice_index (Services (resourceData m)) (selectedItem m) with
            | Panic => Panic
            | Ok selectedSvc =>
                Ok (m, Some (tea_Batch
                       [spinner_Tick (spinner m);
                        getServiceDetail (client m) (sNamespace selectedSvc) (sName selectedSvc)]))
            end
          else spinner_pass m msg
      | NamespaceView =>
          if 0 <? len (namespaces m) then
            match slice_index (namespaces m) (selectedItem m) with
            | Panic => Panic
            | Ok ns =>
                let m := set_currentNS ns m in
                let m := set_currentView PodView m in
                let m := set_loading true m in
                let m := set_message ("Switching to namespace: " +:+ currentNS m) m in
                Ok (m, Some (tea_Batch
                       [spinner_Tick (spinner m);
                        getResources (client m) (currentNS m)]))
            end
          else spinner_pass m msg
      | DetailView => spinner_pass m msg
      end
    else spinner_pass m msg
  else if String.eqb k "r" then
    if negb (loading m) then
      let m := set_loading true m in
      let m := set_message "Refreshing resources..." m in
      Ok (m, Some (tea_Batch
             [spinner_Tick (spinner m);
              getResources (client m) (currentNS m)]))
    else spinner_pass m msg
  else if String.eqb k "n" then
    spinner_pass
      (if negb (loading m) then
         let m := set_currentView NamespaceView m in
         match range_find (namespaces m) (currentNS m) 0 with
         | Some i => set_selectedItem i m
         | None => m
         end
       else m) msg
  else spinner_pass m msg.

(** [func (m Model) Update(msg tea.Msg) (tea.Model, tea.Cmd)]. *)
Definition Update (m : Model) (msg : Msg) : result (Model * option Cmd) :=
  match msg with
  | KeyMsg k => Update_key m k
  | WindowSizeMsg w h => spinner_pass (set_size w h m) msg
  | TickMsg _ =>
      let '(s, c) := spinner_Update (spinner m) msg in
      Ok (set_spinner s m, spinner_cmd <$> c)
  | k8sClientMsg cl err =>
      match err with
      | Some e =>
          let m := set_loading false m in
          let m := set_error ("Error connecting to Kubernetes: " +:+ e) m in
          Ok (m, None)
      | None =>
          let m := set_client cl m in
          let m := set_message "Getting context information..." m in
          Ok (m, Some (getContextInfo (client m)))
      end
  | contextInfoMsg ctx err =>
      let m := match err with
               | Some _ => set_context "unknown-context" m
               | None => set_context ctx m
               end in
      let m := set_message "Fetching namespaces..." m in
      Ok (m, Some (getNamespaces (client m)))
  | namespacesMsg nss err =>
      match err with
      | Some e =>
          let m := set_loading false m in
          let m := set_error ("Error fetching namespaces: " +:+ e) m in
          Ok (m, None)
      | None =>
          let m := set_namespaces nss m in
          let m := set_message "Fetching resources..." m in
          Ok (m, Some (getResources (client m) (currentNS m)))
      end
  | resourcesMsg data err =>
      let m := set_loading false m in
      match err with
      | Some e => Ok (set_error ("Error fetching resources: " +:+ e) m, None)
      | None => Ok (set_resourceData data m, None)
      end
  | podDetailMsg detail err =>
      let m := set_loading false m in
      match err with
      | Some e => Ok (set_error ("Error fetching pod details: " +:+ e) m, None)
      | None => Ok (set_detailContent detail m, None)
      end
  | serviceDetailMsg detail err =>
      let m := set_loading false m in
      match err with
      | Some e => Ok (set_error ("Error fetching service details: " +:+ e) m, None)
      | None => Ok (set_detailContent detail m, None)
      end
  | otherMsg _ => spinner_pass m msg
  end.


(** The length of the list the current view shows; the detail view shows
    none. *)
Definition view_len (m : Model) : option Z :=
  match currentView m with
  | PodView => Some (len (Pods (resourceData m)))
  | ServiceView => Some (len (Services (resourceData m)))
  | NamespaceView => Some (len (namespaces m))
  | DetailView => None
  end.

(** The selection points into the list of the current view, or the list is
    empty and the selection is 0. *)
Definition selection_ok (m : Model) : Prop :=
  match view_len m with
  | Some n => (0 <= selectedItem m < n) \/ (n = 0 /\ selectedItem m = 0)
  | None => 0 <= selectedItem m
  end.

(** The messages after which the selection may point outside the list of
    the view: the view changes but the selection is kept ("esc" out of the
    detail view or the picker, "enter" in the picker), the picker opens
    ("n"), or a list is replaced (a successful snapshot or namespace
    list). *)
Definition may_strand_selection (m : Model) (msg : Msg) : bool :=
  match msg with
  | KeyMsg k =>
      String.eqb k "n"
      || (String.eqb k "esc"
          && match currentView m with
             | DetailView | NamespaceView => true
             | _ => false
             end)
      || (String.eqb k "enter"
          && match currentView m with
             | NamespaceView => true
             | _ => false
             end)
  | resourcesMsg _ None | namespacesMsg _ None => true
  | _ => false
  end.

(** Two models that differ at most in [currentView] and in the spinner. *)
Definition same_but_view (m m' : Model) : Prop :=
  loading m' = loading m
  /\ selectedItem m' = selectedItem m
  /\ width m' = width m /\ height m' = height m
  /\ message m' = message m
  /\ error m' = error m
  /\ client m' = client m
  /\ namespaces m' = namespaces m
  /\ currentNS m' = currentNS m
  /\ context m' = context m
  /\ resourceData m' = resourceData m
  /\ detailContent m' = detailContent m.


(** The fields of [Model], to name the ones a step may write. *)
Inductive Field : Set :=
| F_spinner | F_loading | F_currentView | F_selectedItem | F_width | F_height
| F_message | F_error | F_client | F_namespaces | F_currentNS | F_context
| F_resourceData | F_detailContent.

(** The field [f] has the same value in [m'] as in [m]. *)
Definition keeps (f : Field) (m m' : Model) : Prop :=
  match f with
  | F_spinner => spinner m' = spinner m
  | F_loading => loading m' = loading m
  | F_currentView => currentView m' = currentView m
  | F_selectedItem => selectedItem m' = selectedItem m
  | F_width => width m' = width m
  | F_height => height m' = height m
  | F_message => message m' = message m
  | F_error => error m' = error m
  | F_client => client m' = client m
  | F_namespaces => namespaces m' = namespaces m
  | F_currentNS => currentNS m' = currentNS m
  | F_context => context m' = context m
  | F_resourceData => resourceData m' = resourceData m
  | F_detailContent => detailContent m' = detailContent m
  end.

(** Every field outside [fields] has the same value in [m'] as in [m]. *)
Definition differs_only (fields : list Field) (m m' : Model) : Prop :=
  forall f, f ∉ fields -> keeps f m m'.

(** ** The commands and the runtime that executes them *)

(** The body of the closure returned by [getResources], as a function of
    what the two gateway calls return.  A failure of the second call
    reports the error together with a half-filled [data]. *)
Definition getResources_run (pods : list PodInfo * goerror)
    (services : list ServiceInfo * goerror) : Msg :=
  let data := resources.zero in
  match pods.2 with
  | Some e => resourcesMsg data (Some e)
  | None =>
      let data := mkResourceData pods.1 (Services data) in
      match services.2 with
      | Some e => resourcesMsg data (Some e)
      | None => resourcesMsg (mkResourceData (Pods data) services.1) None
      end
  end.

(** The body of the closure returned by [getNamespaces], as a function of
    what [client.GetNamespaces] returns. *)
Definition getNamespaces_run (listed : list string * goerror) : Msg :=
  namespacesMsg listed.1 listed.2.

(** The message a fetch command can come back with; the gateway decides the
    payload. *)
Inductive completes : Cmd -> Msg -> Prop :=
| completes_init cl err :
    completes initK8sClient (k8sClientMsg cl err)
| completes_context cl ctx err :
    completes (getContextInfo cl) (contextInfoMsg ctx err)
| completes_namespaces cl nss err :
    completes (getNamespaces cl) (namespacesMsg nss err)
| completes_resources cl ns pods services :
    completes (getResources cl ns) (getResources_run pods services)
| completes_pod cl ns name detail err :
    completes (getPodDetail cl ns name) (podDetailMsg detail err)
| completes_service cl ns name detail err :
    completes (getServiceDetail cl ns name) (serviceDetailMsg detail err).

(** The gateway fetches inside a command: [tea.Batch] runs each of its
    commands; quit and the spinner's ticks are not fetches. *)
Fixpoint fetches (c : Cmd) : list Cmd :=
  match c with
  | tea_Quit | spinner_Tick _ | spinner_cmd _ => []
  | tea_Batch cmds =>
      (fix each (cs : list Cmd) : list Cmd :=
         match cs with
         | [] => []
         | c :: cs => fetches c ++ each cs
         end) cmds
  | _ => [c]
  end.

Definition scheduled (c : option Cmd) : list Cmd :=
  match c with
  | None => []
  | Some c => fetches c
  end.

(** The fetches a key can ask for: a detail, or a snapshot. *)
Definition user_fetch (f : Cmd) : bool :=
  match f with
  | getResources _ _ | getPodDetail _ _ _ | getServiceDetail _ _ _ => true
  | _ => false
  end.

(** Messages that come from the terminal or from a timer rather than from a
    fetch. *)
Definition is_input (msg : Msg) : bool :=
  match msg with
  | KeyMsg _ | WindowSizeMsg _ _ | TickMsg _ | otherMsg _ => true
  | _ => false
  end.

(** The Bubble Tea event loop around the model: the current model and the
    fetches that were started and have not reported back. *)
Record Runtime : Type := mkRuntime {
  current : Model;
  pending : list Cmd
}.

Definition boot : Runtime :=
  {| current := New; pending := scheduled (Init New) |}.

(** One event at a time: an input, or the completion of a pending fetch.
    A panic in [Update] ends the program, so it has no successor. *)
Inductive step : Runtime -> Runtime -> Prop :=
| step_input r msg m' c :
    is_input msg = true ->
    Update (current r) msg = Ok (m', c) ->
    step r {| current := m'; pending := pending r ++ scheduled c |}
| step_completion r before f after msg m' c :
    pending r = before ++ f :: after ->
    completes f msg ->
    Update (current r) msg = Ok (m', c) ->
    step r {| current := m'; pending := before ++ after ++ scheduled c |}.

Definition reachable (r : Runtime) : Prop := rtc step boot r.

(** No fetch is pending, or exactly one is and the model is loading. *)
Definition single_flight (r : Runtime) : Prop :=
  pending r = [] \/ (loading (current r) = true /\ exists f, pending r = [f]).

(** The fetch [f] was built from the client the model holds now, and, for
    a snapshot, asks for the namespace that is current now. *)
Definition fetch_current (m : Model) (f : Cmd) : Prop :=
  match f with
  | getContextInfo cl | getNamespaces cl => cl = client m
  | getPodDetail cl _ _ | getServiceDetail cl _ _ => cl = client m
  | getResources cl ns => cl = client m /\ ns = currentNS m
  | _ => True
  end.

(** The current namespace is the initial "default", or it was picked from
    the namespace list and the start-up is over. *)
Definition namespace_known (r : Runtime) : Prop :=
  currentNS (current r) = "default"
  \/ (currentNS (current r) ∈ namespaces (current r)
      /\ Forall (fun f => user_fetch f = true) (pending r)).

(** Whether [msg] has the shape of an answer to the fetch [f] (the
    executable side of [completes]). *)
Definition answers (f : Cmd) (msg : Msg) : bool :=
  match f, msg with
  | initK8sClient, k8sClientMsg _ _ => true
  | getContextInfo _, contextInfoMsg _ _ => true
  | getNamespaces _, namespacesMsg _ _ => true
  | getResources _ _, resourcesMsg data err =>
      match err, Services data with
      | Some _, _ :: _ => false
      | _, _ => true
      end
  | getPodDetail _ _ _, podDetailMsg _ _ => true
  | getServiceDetail _ _ _, serviceDetailMsg _ _ => true
  | _, _ => false
  end.

(** The event loop run on a script of messages: an input is always
    accepted, any other message must answer the oldest pending fetch.
    [None]: the script is not one the loop can see.  [Some Panic]: the
    program died on the way. *)
Fixpoint drive (r : Runtime) (msgs : list Msg) : option (result Runtime) :=
  match msgs with
  | [] => Some (Ok r)
  | msg :: rest =>
      if is_input msg then
        match Update (current r) msg with
        | Ok (m', c) => drive (mkRuntime m' (pending r ++ scheduled c)) rest
        | Panic => Some Panic
        end
      else
        match pending r with
        | f :: after =>
            if answers f msg then
              match Update (current r) msg with
              | Ok (m', c) => drive (mkRuntime m' (after ++ scheduled c)) rest
              | Panic => Some Panic
              end
            else None
        | [] => None
        end
  end.

(** Feeding a list of messages to [Update], oldest first. *)
Fixpoint run (m : Model) (msgs : list Msg) : result Model :=
  match msgs with
  | [] => Ok m
  | msg :: rest =>
      match Update m msg with
      | Ok (m', _) => run m' rest
      | Panic => Panic
      end
  end.

End Engine.

(** ** Rendering: [View] *)

(** The rendering functions of package ui, which [View] calls and which
    are not part of the model. *)
Record Renderer : Type := mkRenderer {
  RenderLoadingView : string -> string -> string;
  RenderErrorView : string -> string;
  RenderPodsView : list PodInfo -> Z -> string -> string;
  RenderServicesView : list ServiceInfo -> Z -> string -> string;
  RenderPodDetailView : string -> string;
  RenderNamespacesView : list string -> Z -> string
}.

Section Rendering.

Context {spinner_Model : Type}.
Variable spinner_View : spinner_Model -> string.
Variable ui : Renderer.

(** [func (m Model) View() string].  The [default] arm of its switch
    ("Unknown view") needs a view outside the four constants. *)
Definition View (m : Model) : string :=
  if loading m then
    RenderLoadingView ui (spinner_View (spinner m)) (message m)
  else if negb (String.eqb (error m) "") then
    RenderErrorView ui (error m)
  else
    let contextInfo := " (Context: " +:+ context m +:+ ")" in
    match currentView m with
    | PodView =>
        RenderPodsView ui (Pods (resourceData m)) (selectedItem m) (currentNS m)
        +:+ contextInfo
    | ServiceView =>
        RenderServicesView ui (Services (resourceData m)) (selectedItem m) (currentNS m)
        +:+ contextInfo
    | DetailView => RenderPodDetailView ui (detailContent m)
    | NamespaceView => RenderNamespacesView ui (namespaces m) (selectedItem m)
    end.

End Rendering.

(** ** A concrete spinner and a small cluster, for the closed examples *)

(** A spinner that counts its ticks and ignores every other message. *)
Definition count_Update (s : nat) (msg : @Msg unit) : nat * option unit :=
  match msg with
  | TickMsg _ => (S s, Some tt)
  | _ => (s, None)
  end.

Definition pod (ns name : string) : PodInfo :=
  mkPodInfo name ns "Running" "1d" "10.0.0.1" "node-1" 0 ∅ [].

Definition svc (ns name : string) : ServiceInfo :=
  mkServiceInfo name ns "ClusterIP" "10.96.0.1" "" "80/TCP" "1d" ∅.

Definition two_pods : ResourceData :=
  mkResourceData [pod "default" "web-0"; pod "default" "web-1"] [svc "default" "web"].

Definition one_pod : ResourceData :=
  mkResourceData [pod "default" "web-0"] [svc "default" "web"].

Definition cluster : option K8sClient := Some (mkK8sClient 1).

(** The start-up of the happy path: connection, context, two namespaces,
    a snapshot of "default" with two pods and one service. *)
Definition startup : list (@Msg unit) :=
  [ k8sClientMsg cluster None;
    contextInfoMsg "prod-context" None;
    namespacesMsg ["default"; "kube-system"] None;
    resourcesMsg two_pods None ].

(** A refresh fails, the next refresh succeeds. *)
Definition retry_script : list (@Msg unit) :=
  startup ++ [ KeyMsg "r"; resourcesMsg resources.zero (Some "timeout"); KeyMsg "r" ].

(** After that the second refresh succeeds and "p" is pressed. *)
Definition recovered_script : list (@Msg unit) :=
  retry_script ++ [ resourcesMsg two_pods None; KeyMsg "p" ].

(** Select the second pod, refresh, and the namespace now has one pod. *)
Definition shrink_script : list (@Msg unit) :=
  startup ++ [ KeyMsg "down"; KeyMsg "r"; resourcesMsg one_pod None ].

(** Open the detail of the first pod; its fetch is still pending. *)
Definition detail_script : list (@Msg unit) :=
  startup ++ [ KeyMsg "enter" ].

(** Open the namespace picker and move to "kube-system". *)
Definition picker_script : list (@Msg unit) :=
  startup ++ [ KeyMsg "n"; KeyMsg "down" ].

(** A cluster whose namespace list does not hold "default"; the second pod
    is selected. *)
Definition foreign_script : list (@Msg unit) :=
  [ k8sClientMsg cluster None;
    contextInfoMsg "prod-context" None;
    namespacesMsg ["kube-system"] None;
    resourcesMsg two_pods None;
    KeyMsg "down" ].

(** The event loop after a script, started from [New] with the counting
    spinner (the booted loop itself when the script is not a run). *)
Definition played (msgs : list (@Msg unit)) : @Runtime nat unit :=
  match drive count_Update (boot O) msgs with
  | Some (Ok r) => r
  | _ => boot O
  end.

(** The model a script leaves behind. *)
Definition after (msgs : list (@Msg unit)) : @Model nat := current (played msgs).

(** A renderer that tags each frame with its kind, and a spinner drawn as
    its tick count. *)
Definition tag_ui : Renderer :=
  {| RenderLoadingView := fun spin msg => "loading " +:+ spin +:+ " " +:+ msg;
     RenderErrorView := fun err => "error " +:+ err;
     RenderPodsView := fun _ sel ns => "pods " +:+ ns +:+ " " +:+ pretty sel;
     RenderServicesView := fun _ sel ns => "services " +:+ ns +:+ " " +:+ pretty sel;
     RenderPodDetailView := fun text => "detail " +:+ text;
     RenderNamespacesView := fun _ sel => "namespaces " +:+ pretty sel |}.

Definition count_View (s : nat) : string := pretty s.

(** ** Facts about [Update] *)

(** Closes [differs_only fields m m'] when [m'] is [m] with the listed
    fields assigned. *)
Ltac frame :=
  let f := fresh "f" in
  let Hf := fresh "Hf" in
  intros f Hf; destruct f; cbn [keeps]; try reflexivity;
  exfalso; apply Hf; rewrite ?elem_of_cons;
  repeat match goal with
         | |- _ \/ _ => first [left; reflexivity | right]
         end.

Section Facts.

Context {spinner_Model spinner_TickMsg spinner_Cmd : Type}.
Variable spinner_New : spinner_Model.
Variable spinner_Update :
  spinner_Model -> @Msg spinner_TickMsg -> spinner_Model * option spinner_Cmd.

Implicit Types (m : @Model spinner_Model) (msg : @Msg spinner_TickMsg).
Implicit Types (c : option (@Cmd spinner_Model spinner_Cmd)) (k : string).

(** The cases of [Update] that do not return early hand the message to the
    spinner and change nothing else. *)
Lemma spinner_pass_eq m msg :
  spinner_pass spinner_Update m msg
  = Ok (set_spinner (spinner_Update (spinner m) msg).1 m,
        spinner_cmd <$> (spinner_Update (spinner m) msg).2).
Proof. unfold spinner_pass. by destruct (spinner_Update _ _). Qed.

(** What the spinner hands back is never a fetch. *)
Lemma scheduled_spinner_cmd (o : option spinner_Cmd) :
  scheduled (spinner_cmd (spinner_Model := spinner_Model) <$> o) = [].
Proof. by destruct o. Qed.

(** C10: a successful snapshot completion writes [loading] and
    [resourceData] and nothing else; every other field of the model,
    [selectedItem] included, keeps its value, whatever the length of the
    new lists. *)
Theorem C10_snapshot_success_frame m (data : ResourceData) :
  exists m',
    Update spinner_Update m (resourcesMsg data None) = Ok (m', None)
    /\ loading m' = false
    /\ resourceData m' = data
    /\ currentView m' = currentView m
    /\ selectedItem m' = selectedItem m
    /\ currentNS m' = currentNS m
    /\ error m' = error m
    /\ detailContent m' = detailContent m
    /\ namespaces m' = namespaces m
    /\ context m' = context m
    /\ client m' = client m
    /\ message m' = message m
    /\ width m' = width m /\ height m' = height m
    /\ spinner m' = spinner m.
Proof. eexists. split; [reflexivity|]. simpl. repeat split. Qed.

(** C1 (as the code has it): a successful snapshot or detail completion
    replaces the snapshot, respectively the detail text, by the payload and
    sets [loading] to false; [error] keeps the value it had, so it is empty
    afterwards only if it was empty before. *)
Theorem C1_success_completion m :
  (forall data, exists m',
      Update spinner_Update m (resourcesMsg data None) = Ok (m', None)
      /\ resourceData m' = data /\ loading m' = false /\ error m' = error m)
  /\ (forall detail, exists m',
      Update spinner_Update m (podDetailMsg detail None) = Ok (m', None)
      /\ detailContent m' = detail /\ loading m' = false /\ error m' = error m)
  /\ (forall detail, exists m',
      Update spinner_Update m (serviceDetailMsg detail None) = Ok (m', None)
      /\ detailContent m' = detail /\ loading m' = false /\ error m' = error m).
Proof. repeat split; intros; eexists; (split; [reflexivity|]); simpl; auto. Qed.

(** C9: in the detail view and in the namespace picker, "esc" leads to the
    pod view; the namespace list, the snapshot, the detail text, the
    current namespace and the selection are untouched (as are [loading] and
    [error]), and nothing is fetched. *)
Theorem C9_back_changes_only_the_view m :
  currentView m = DetailView \/ currentView m = NamespaceView ->
  exists m' c,
    Update spinner_Update m (KeyMsg "esc") = Ok (m', c)
    /\ currentView m' = PodView
    /\ namespaces m' = namespaces m
    /\ resourceData m' = resourceData m
    /\ detailContent m' = detailContent m
    /\ currentNS m' = currentNS m
    /\ selectedItem m' = selectedItem m
    /\ loading m' = loading m
    /\ error m' = error m
    /\ scheduled c = [].
Proof.
  intros Hview. cbn [Update]. unfold Update_key. cbn [String.eqb Ascii.eqb Bool.eqb orb].
  rewrite spinner_pass_eq. do 2 eexists. split; [reflexivity|].
  rewrite scheduled_spinner_cmd.
  destruct Hview as [-> | ->]; simpl; repeat split.
Qed.

(** Case analysis on the key of a [tea.KeyMsg], following the switch. *)
Ltac key_cases k :=
  unfold Update_key in *;
  repeat (match goal with
          | |- context [String.eqb k ?lit] =>
              destruct (String.eqb_spec k lit) as [->|?]
          | H : context [String.eqb k ?lit] |- _ =>
              destruct (String.eqb_spec k lit) as [->|?]
          end;
          cbn [String.eqb Ascii.eqb Bool.eqb orb andb negb] in *).

(** C3 (as the code has it): while [loading] is set, a key other than the
    quit keys fetches nothing and leaves every field alone except that
    the spinner sees the key and that "esc" is still honoured: it moves
    the detail view and the namespace picker to the pod view.  Any key
    other than quit and "esc" leaves the view as well. *)
Theorem C3_keys_while_loading m k :
  loading m = true -> k ≠ "ctrl+c" -> k ≠ "q" ->
  exists m' c,
    Update spinner_Update m (KeyMsg k) = Ok (m', c)
    /\ scheduled c = []
    /\ same_but_view m m'
    /\ spinner m' = (spinner_Update (spinner m) (KeyMsg k)).1
    /\ (k ≠ "esc" -> currentView m' = currentView m)
    /\ (k = "esc" ->
        currentView m' = match currentView m with
                         | DetailView | NamespaceView => PodView
                         | v => v
                         end).
Proof.
  intros Hl Hc Hq. cbn [Update]. key_cases k; try congruence;
    rewrite ?Hl; cbn [negb andb]; rewrite spinner_pass_eq;
    do 2 eexists; (split; [reflexivity|]); rewrite scheduled_spinner_cmd;
    (split; [reflexivity|]); unfold same_but_view; simpl;
    destruct (currentView m) eqn:Hview; simpl; repeat split; congruence.
Qed.

(** *** The selection *)

(** The cursor keys keep a good selection good, in every view and whether
    or not the model is loading. *)
Lemma cursor_keeps_selection m k m' c :
  k ∈ ["up"; "k"; "down"; "j"] ->
  Update spinner_Update m (KeyMsg k) = Ok (m', c) ->
  selection_ok m -> selection_ok m'.
Proof.
  intros Hk Hup. cbn [Update] in Hup.
  assert (k = "up" \/ k = "k" \/ k = "down" \/ k = "j") as [-> | [-> | [-> | ->]]]
    by (repeat (apply elem_of_cons in Hk as [?|Hk]; [tauto|]); by apply elem_of_nil in Hk).
  all: unfold Update_key in Hup; cbn [String.eqb Ascii.eqb Bool.eqb orb] in Hup;
    rewrite spinner_pass_eq in Hup; simplify_eq;
    unfold selection_ok, view_len, len; simpl;
    destruct (loading m); simpl; try done;
    destruct (currentView m) eqn:Hview; simpl; rewrite ?Hview;
    repeat match goal with
           | |- context [?a <? ?b] => destruct (Z.ltb_spec a b); simpl; rewrite ?Hview
           end; lia.
Qed.

(** On an empty list "enter" does nothing but pass the key to the
    spinner. *)
Lemma activate_on_empty_list m :
  view_len m = Some 0 ->
  Update spinner_Update m (KeyMsg "enter") = spinner_pass spinner_Update m (KeyMsg "enter").
Proof.
  unfold view_len. intros Hlen. cbn [Update]. unfold Update_key.
  cbn [String.eqb Ascii.eqb Bool.eqb orb].
  destruct (loading m); simpl; [done|].
  destruct (currentView m); simplify_eq; by rewrite ?Hlen.
Qed.

(** *** One fetch at a time *)

(** A key either schedules nothing and leaves [loading] as it is, or it is
    pressed while nothing loads, sets [loading] and schedules one fetch. *)
Lemma key_schedules m k m' c :
  Update spinner_Update m (KeyMsg k) = Ok (m', c) ->
  (scheduled c = [] /\ loading m' = loading m)
  \/ (loading m = false /\ loading m' = true /\ exists f, scheduled c = [f]).
Proof.
  cbn [Update]. intros Hup. destruct (loading m) eqn:Hl.
  - left. key_cases k; rewrite ?Hl in Hup; cbn [negb andb] in Hup;
      rewrite ?spinner_pass_eq in Hup; simplify_eq;
      rewrite ?scheduled_spinner_cmd; simpl; try done.
    by destruct (currentView m).
  - key_cases k; rewrite ?Hl in Hup; cbn [negb andb] in Hup;
      repeat case_match; rewrite ?spinner_pass_eq in Hup; simplify_eq;
      rewrite ?scheduled_spinner_cmd; simpl; eauto 6.
Qed.

Lemma input_schedules m msg m' c :
  is_input msg = true ->
  Update spinner_Update m msg = Ok (m', c) ->
  (scheduled c = [] /\ loading m' = loading m)
  \/ (loading m = false /\ loading m' = true /\ exists f, scheduled c = [f]).
Proof.
  destruct msg; try discriminate; intros _ Hup.
  - by eapply key_schedules.
  - left. cbn [Update] in Hup. rewrite spinner_pass_eq in Hup. simplify_eq.
    by rewrite scheduled_spinner_cmd.
  - left. cbn [Update] in Hup. destruct (spinner_Update _ _) as [s o].
    simplify_eq. by destruct o.
  - left. cbn [Update] in Hup. rewrite spinner_pass_eq in Hup. simplify_eq.
    by rewrite scheduled_spinner_cmd.
Qed.

(** A completion schedules nothing, or it is a step of the start-up and
    schedules the next one without touching [loading]. *)
Lemma completion_schedules m msg m' c :
  is_input msg = false ->
  Update spinner_Update m msg = Ok (m', c) ->
  scheduled c = [] \/ (loading m' = loading m /\ exists f, scheduled c = [f]).
Proof.
  destruct msg as [| | |? err|? err|? err|? err|? err|? err|];
    try discriminate; intros _ Hup; cbn [Update] in Hup;
    destruct err; simplify_eq; simpl; eauto.
Qed.

Lemma step_single_flight (r r' : Runtime) :
  step spinner_Update r r' -> single_flight r -> single_flight r'.
Proof.
  intros Hstep Hinv.
  inversion Hstep as [? msg m' c Hin Hup
                     | ? before f rest msg m' c Hpend Hcomp Hup];
    subst; unfold single_flight; simpl.
  - destruct (input_schedules _ _ _ _ Hin Hup) as [[-> Hl] | (Hl & Hl' & f & ->)].
    + rewrite app_nil_r, Hl. exact Hinv.
    + destruct Hinv as [-> | [Hl0 _]]; [|congruence]. right. eauto.
  - destruct Hinv as [Hnil | [Hl (f0 & Hone)]].
    { rewrite Hnil in Hpend. by destruct before. }
    rewrite Hone in Hpend.
    assert (before = [] /\ rest = []) as [-> ->].
    { destruct before as [|? [|? ?]]; simpl in Hpend; simplify_eq; auto. }
    assert (is_input msg = false) as Hni
      by (by destruct Hcomp; unfold getResources_run; repeat case_match).
    destruct (completion_schedules _ _ _ _ Hni Hup) as [-> | (Hl' & f' & ->)]; simpl.
    + by left.
    + right. split; [congruence | eauto].
Qed.

Lemma reachable_single_flight (r : Runtime) :
  reachable spinner_New spinner_Update r -> single_flight r.
Proof.
  unfold reachable. apply (rtc_ind_r (fun r => single_flight r)).
  - right. split; [reflexivity|]. by eexists.
  - intros r1 r2 _ Hstep IH. by eapply step_single_flight.
Qed.

(** C7: in every state the event loop can reach, at most one fetch is
    pending, and a pending fetch means [loading] is set; and while
    [loading] is set no input (a key, a resize, a tick, a message of
    another type) schedules a fetch or clears [loading]. *)
Theorem C7_single_pending_fetch (r : Runtime) :
  reachable spinner_New spinner_Update r ->
  (length (pending r) <= 1)%nat
  /\ (pending r ≠ [] -> loading (current r) = true)
  /\ (loading (current r) = true ->
      forall msg m' c,
        is_input msg = true ->
        Update spinner_Update (current r) msg = Ok (m', c) ->
        scheduled c = [] /\ loading m' = true).
Proof.
  intros Hr.
  assert (loading (current r) = true ->
          forall msg m' c,
            is_input msg = true ->
            Update spinner_Update (current r) msg = Ok (m', c) ->
            scheduled c = [] /\ loading m' = true) as Hquiet.
  { intros Hl msg m' c Hin Hup.
    destruct (input_schedules _ _ _ _ Hin Hup) as [[? ?] | (? & ? & ?)]; [|congruence].
    split; congruence. }
  destruct (reachable_single_flight r Hr) as [Hnil | [Hl [f Hone]]].
  - rewrite Hnil. split; [simpl; lia|]. by split.
  - rewrite Hone. split; [simpl; lia|]. by split.
Qed.

(** *** Completions *)




(** Where a scheduled fetch comes from: the three chaining steps of the
    start-up, or a key pressed while nothing loads, which asks for a detail
    or for a snapshot. *)
Lemma key_fetch_kind m k m' c f :
  Update spinner_Update m (KeyMsg k) = Ok (m', c) ->
  f ∈ scheduled c ->
  loading m = false /\ user_fetch f = true.
Proof.
  cbn [Update]. intros Hup Hin. destruct (loading m) eqn:Hl.
  - destruct (key_schedules m k m' c Hup) as [[Hnil _] | (? & _)]; [|congruence].
    rewrite Hnil in Hin. by apply elem_of_nil in Hin.
  - split; [done|]. revert Hin.
    key_cases k; rewrite ?Hl in Hup; cbn [negb andb] in Hup;
      repeat case_match; rewrite ?spinner_pass_eq in Hup; simplify_eq;
      rewrite ?scheduled_spinner_cmd; simpl;
      rewrite ?elem_of_nil, ?list_elem_of_singleton; by intros; subst.
Qed.

Lemma scheduled_origin m msg m' c f :
  Update spinner_Update m msg = Ok (m', c) ->
  f ∈ scheduled c ->
  (exists cl, msg = k8sClientMsg cl None /\ f = getContextInfo cl)
  \/ (exists ctx err, msg = contextInfoMsg ctx err /\ f = getNamespaces (client m))
  \/ (exists nss, msg = namespacesMsg nss None
                  /\ f = getResources (client m) (currentNS m))
  \/ (exists k, msg = KeyMsg k /\ loading m = false /\ user_fetch f = true).
Proof.
  intros Hup Hin. destruct msg as [k| | |? err|? err|? err|? err|? err|? err|].
  - destruct (key_fetch_kind _ _ _ _ _ Hup Hin). do 3 right. eauto.
  - cbn [Update] in Hup. rewrite spinner_pass_eq in Hup. simplify_eq.
    rewrite scheduled_spinner_cmd in Hin. by apply elem_of_nil in Hin.
  - cbn [Update] in Hup. destruct (spinner_Update _ _) as [s o]. simplify_eq.
    rewrite scheduled_spinner_cmd in Hin. by apply elem_of_nil in Hin.
  - cbn [Update] in Hup. destruct err; simplify_eq; simpl in Hin.
    + by apply elem_of_nil in Hin.
    + apply list_elem_of_singleton in Hin. left. eauto.
  - cbn [Update] in Hup. right; left.
    destruct err; simplify_eq; simpl in Hin;
      apply list_elem_of_singleton in Hin; eauto.
  - cbn [Update] in Hup. destruct err; simplify_eq; simpl in Hin.
    + by apply elem_of_nil in Hin.
    + apply list_elem_of_singleton in Hin. right; right; left. eauto.
  - cbn [Update] in Hup. destruct err; simplify_eq; by apply elem_of_nil in Hin.
  - cbn [Update] in Hup. destruct err; simplify_eq; by apply elem_of_nil in Hin.
  - cbn [Update] in Hup. destruct err; simplify_eq; by apply elem_of_nil in Hin.
  - cbn [Update] in Hup. rewrite spinner_pass_eq in Hup. simplify_eq.
    rewrite scheduled_spinner_cmd in Hin. by apply elem_of_nil in Hin.
Qed.

(** C8: the start-up chain.  [Init] starts the connection; a successful
    connection stores the client and schedules the context lookup; the
    context answer, good or bad, schedules the namespace list, a good one
    storing the context and a bad one storing "unknown-context"; a
    successful namespace list is stored and schedules the snapshot of the
    current namespace; the snapshot answer clears [loading].  A failed
    connection or namespace list sets [error], clears [loading] and
    schedules nothing.  Each of these steps writes the named fields and
    the status message and no other field.  No other message schedules the
    context lookup or the namespace list, nothing restarts the connection,
    and apart from the keys of an idle dashboard only a successful
    namespace list schedules a snapshot. *)
Theorem C8_startup_protocol m :
  Init (spinner_Cmd := spinner_Cmd) m
  = Some (tea_Batch [spinner_Tick (spinner m); initK8sClient])
  /\ (forall cl, exists m',
      Update spinner_Update m (k8sClientMsg cl None)
      = Ok (m', Some (getContextInfo cl))
      /\ client m' = cl
      /\ message m' = "Getting context information..."
      /\ loading m' = loading m
      /\ error m' = error m
      /\ differs_only [F_client; F_message] m m')
  /\ (forall cl e, exists m',
      Update spinner_Update m (k8sClientMsg cl (Some e)) = Ok (m', None)
      /\ loading m' = false
      /\ error m' = "Error connecting to Kubernetes: " +:+ e
      /\ client m' = client m
      /\ differs_only [F_loading; F_error] m m')
  /\ (forall ctx, exists m',
      Update spinner_Update m (contextInfoMsg ctx None)
      = Ok (m', Some (getNamespaces (client m)))
      /\ context m' = ctx
      /\ message m' = "Fetching namespaces..."
      /\ loading m' = loading m
      /\ error m' = error m
      /\ differs_only [F_context; F_message] m m')
  /\ (forall ctx e, exists m',
      Update spinner_Update m (contextInfoMsg ctx (Some e))
      = Ok (m', Some (getNamespaces (client m)))
      /\ context m' = "unknown-context"
      /\ message m' = "Fetching namespaces..."
      /\ loading m' = loading m
      /\ error m' = error m
      /\ differs_only [F_context; F_message] m m')
  /\ (forall nss, exists m',
      Update spinner_Update m (namespacesMsg nss None)
      = Ok (m', Some (getResources (client m) (currentNS m)))
      /\ namespaces m' = nss
      /\ message m' = "Fetching resources..."
      /\ loading m' = loading m
      /\ error m' = error m
      /\ differs_only [F_namespaces; F_message] m m')
  /\ (forall nss e, exists m',
      Update spinner_Update m (namespacesMsg nss (Some e)) = Ok (m', None)
      /\ loading m' = false
      /\ error m' = "Error fetching namespaces: " +:+ e
      /\ namespaces m' = namespaces m
      /\ differs_only [F_loading; F_error] m m')
  /\ (forall data err, exists m',
      Update spinner_Update m (resourcesMsg data err) = Ok (m', None)
      /\ loading m' = false)
  /\ (forall msg m' c,
      Update spinner_Update m msg = Ok (m', c) ->
      (initK8sClient ∉ scheduled c)
      /\ (forall cl, getContextInfo cl ∈ scheduled c ->
           exists cl', msg = k8sClientMsg cl' None)
      /\ (forall cl, getNamespaces cl ∈ scheduled c ->
           exists ctx err, msg = contextInfoMsg ctx err)
      /\ (forall cl ns, getResources cl ns ∈ scheduled c ->
           (exists nss, msg = namespacesMsg nss None)
           \/ (exists k, msg = KeyMsg k /\ loading m = false))).
Proof.
  split; [reflexivity|].
  do 6 (split; [intros; eexists; (split; [reflexivity|]);
                cbn; repeat (split; [reflexivity|]); frame|]).
  split. { intros data [e|]; eexists; by split. }
  intros msg m' c Hup. repeat split.
  - intros Hin. by destruct (scheduled_origin _ _ _ _ _ Hup Hin)
      as [(? & _ & ?) | [(? & ? & _ & ?) | [(? & _ & ?) | (? & _ & _ & ?)]]].
  - intros cl Hin. destruct (scheduled_origin _ _ _ _ _ Hup Hin)
      as [(? & ? & ?) | [(? & ? & _ & ?) | [(? & _ & ?) | (? & _ & _ & ?)]]];
      try done. eauto.
  - intros cl Hin. destruct (scheduled_origin _ _ _ _ _ Hup Hin)
      as [(? & _ & ?) | [(? & ? & ? & ?) | [(? & _ & ?) | (? & _ & _ & ?)]]];
      try done. eauto.
  - intros cl ns Hin. destruct (scheduled_origin _ _ _ _ _ Hup Hin)
      as [(? & _ & ?) | [(? & ? & _ & ?) | [(? & ? & ?) | (? & ? & ? & ?)]]];
      try done; eauto.
Qed.

(** *** Scripts *)

Lemma answers_completes (f : @Cmd spinner_Model spinner_Cmd) msg :
  answers f msg = true -> completes f msg.
Proof.
  destruct f, msg; try discriminate; intros Hans; try constructor.
  simpl in Hans. destruct data as [pods services].
  destruct err as [e|].
  - destruct services; [|discriminate].
    apply (completes_resources cl namespace (pods, None) ([], Some e)).
  - apply (completes_resources cl namespace (pods, None) (services, None)).
Qed.

(** A script the loop runs to the end is a path of [step]. *)
Lemma drive_sound (msgs : list (@Msg spinner_TickMsg)) (r r' : Runtime) :
  drive spinner_Update r msgs = Some (Ok r') -> rtc (step spinner_Update) r r'.
Proof.
  revert r. induction msgs as [|msg rest IH]; intros r Hrun; simpl in Hrun.
  - simplify_eq. apply rtc_refl.
  - destruct (is_input msg) eqn:Hin.
    + destruct (Update spinner_Update (current r) msg) as [[m' c]|] eqn:Hup; [|discriminate].
      eapply rtc_l; [|by apply IH]. by apply step_input with (msg := msg).
    + destruct (pending r) as [|f others] eqn:Hpend; [discriminate|].
      destruct (answers f msg) eqn:Hans; [|discriminate].
      destruct (Update spinner_Update (current r) msg) as [[m' c]|] eqn:Hup; [|discriminate].
      eapply rtc_l; [|by apply IH].
      apply (step_completion spinner_Update r [] f others msg m' c); auto.
      by apply answers_completes.
Qed.

End Facts.

(** ** The dashboard on the small cluster *)

Lemma played_reachable (msgs : list (@Msg unit)) :
  drive count_Update (boot O) msgs = Some (Ok (played msgs)) ->
  reachable O count_Update (played msgs).
Proof. intros Hrun. by apply drive_sound in Hrun. Qed.

(** C1, as stated, fails: a refresh failed, the next refresh is under way;
    its successful completion stores the new snapshot and clears [loading],
    and the old error text is still there. *)
Lemma C1_error_outlives_success :
  reachable O count_Update (played retry_script)
  /\ pending (played retry_script) = [getResources cluster "default"]
  /\ loading (after retry_script) = true
  /\ exists m',
      Update count_Update (after retry_script) (resourcesMsg two_pods None) = Ok (m', None)
      /\ resourceData m' = two_pods
      /\ loading m' = false
      /\ error m' = "Error fetching resources: timeout"
      /\ error m' ≠ "".
Proof.
  split; [apply played_reachable; vm_compute; reflexivity|].
  do 2 (split; [vm_compute; reflexivity|]).
  eexists. split; [vm_compute; reflexivity|]. repeat split; try (vm_compute; reflexivity).
  simpl. discriminate.
Qed.

(** C2: the loop reaches a state of the pod view in which one pod is
    listed and the selection is 1: select the second of two pods, refresh,
    and the namespace has one pod left.  "enter" then indexes the pod list
    out of range and the program panics. *)
Theorem C2_selection_outruns_list :
  reachable O count_Update (played shrink_script)
  /\ currentView (after shrink_script) = PodView
  /\ loading (after shrink_script) = false
  /\ len (Pods (resourceData (after shrink_script))) = 1
  /\ selectedItem (after shrink_script) = 1
  /\ ~ selection_ok (after shrink_script)
  /\ Update count_Update (after shrink_script) (KeyMsg "enter") = Panic.
Proof.
  split; [apply played_reachable; vm_compute; reflexivity|].
  do 4 (split; [vm_compute; reflexivity|]).
  split; [|vm_compute; reflexivity].
  assert (view_len (after shrink_script) = Some 1) as Hlen by (vm_compute; reflexivity).
  assert (selectedItem (after shrink_script) = 1) as Hsel by (vm_compute; reflexivity).
  unfold selection_ok. rewrite Hlen, Hsel. lia.
Qed.

(** C3, as stated, fails: the detail of a pod is being fetched, [loading]
    is set, and "esc" changes the view from detail to pods. *)
Lemma C3_back_while_loading :
  reachable O count_Update (played detail_script)
  /\ loading (after detail_script) = true
  /\ currentView (after detail_script) = DetailView
  /\ exists m',
      Update count_Update (after detail_script) (KeyMsg "esc") = Ok (m', None)
      /\ currentView m' = PodView
      /\ m' ≠ after detail_script.
Proof.
  split; [apply played_reachable; vm_compute; reflexivity|].
  do 2 (split; [vm_compute; reflexivity|]).
  eexists. split; [vm_compute; reflexivity|]. split; [reflexivity|].
  intros Heq. apply (f_equal currentView) in Heq. discriminate Heq.
Qed.

Lemma C3_keys_while_loading_witness :
  loading (after detail_script) = true /\ "p" ≠ "ctrl+c" /\ "p" ≠ "q"
  /\ exists m' c,
      Update count_Update (after detail_script) (KeyMsg "p") = Ok (m', c)
      /\ scheduled c = []
      /\ same_but_view (after detail_script) m'
      /\ spinner m' = (count_Update (spinner (after detail_script)) (KeyMsg "p")).1
      /\ ("p" ≠ "esc" -> currentView m' = currentView (after detail_script))
      /\ ("p" = "esc" ->
          currentView m' = match currentView (after detail_script) with
                           | DetailView | NamespaceView => PodView
                           | v => v
                           end).
Proof.
  split; [vm_compute; reflexivity|]. split; [discriminate|]. split; [discriminate|].
  apply (C3_keys_while_loading count_Update (after detail_script) "p");
    [vm_compute; reflexivity | discriminate | discriminate].
Defined.

(** C4: in the picker with "kube-system" selected (index 1), "enter" makes
    it the current namespace, goes to the pod view, sets [loading] and
    fetches its snapshot, and the selection is still 1; once the snapshot,
    with one pod, is in, "enter" panics. *)
Theorem C4_picker_activate_keeps_selection :
  reachable O count_Update (played picker_script)
  /\ currentView (after picker_script) = NamespaceView
  /\ loading (after picker_script) = false
  /\ namespaces (after picker_script) = ["default"; "kube-system"]
  /\ selectedItem (after picker_script) = 1
  /\ exists m',
      Update count_Update (after picker_script) (KeyMsg "enter")
      = Ok (m', Some (tea_Batch [spinner_Tick O; getResources cluster "kube-system"]))
      /\ currentNS m' = "kube-system"
      /\ currentView m' = PodView
      /\ loading m' = true
      /\ selectedItem m' = 1
      /\ run count_Update m' [resourcesMsg one_pod None; KeyMsg "enter"] = Panic.
Proof.
  split; [apply played_reachable; vm_compute; reflexivity|].
  do 4 (split; [vm_compute; reflexivity|]).
  eexists. split; [vm_compute; reflexivity|]. repeat split; try (vm_compute; reflexivity).
Qed.

(** C5: the namespace list is ["kube-system"], the current namespace is
    still "default", the second pod is selected.  "n" opens the picker and
    the selection stays 1, past the end of the one-element list; "enter"
    then panics. *)
Theorem C5_picker_absent_keeps_selection :
  reachable O count_Update (played foreign_script)
  /\ loading (after foreign_script) = false
  /\ namespaces (after foreign_script) = ["kube-system"]
  /\ currentNS (after foreign_script) = "default"
  /\ selectedItem (after foreign_script) = 1
  /\ exists m',
      Update count_Update (after foreign_script) (KeyMsg "n") = Ok (m', None)
      /\ currentView m' = NamespaceView
      /\ selectedItem m' = 1
      /\ Update count_Update m' (KeyMsg "enter") = Panic.
Proof.
  split; [apply played_reachable; vm_compute; reflexivity|].
  do 4 (split; [vm_compute; reflexivity|]).
  eexists. split; [vm_compute; reflexivity|]. repeat split; try (vm_compute; reflexivity).
Qed.



Lemma C7_single_pending_fetch_witness :
  reachable O count_Update (played [])
  /\ (length (pending (played [])) <= 1)%nat
  /\ (pending (played []) ≠ [] -> loading (current (played [])) = true)
  /\ (loading (current (played [])) = true ->
      forall msg m' c,
        is_input msg = true ->
        Update count_Update (current (played [])) msg = Ok (m', c) ->
        scheduled c = [] /\ loading m' = true).
Proof.
  split; [apply rtc_refl|].
  apply (C7_single_pending_fetch O count_Update (played [])). apply rtc_refl.
Defined.

Lemma C8_startup_protocol_witness :
  exists m',
    Update count_Update (New O) (k8sClientMsg cluster None)
    = Ok (m', Some (getContextInfo cluster))
    /\ client m' = cluster
    /\ loading m' = true
    /\ (forall cl, getContextInfo (spinner_Model := nat) (spinner_Cmd := unit) cl
                   ∈ scheduled (Some (getContextInfo cluster)) ->
         exists cl',
           k8sClientMsg (spinner_TickMsg := unit) cluster None = k8sClientMsg cl' None).
Proof.
  pose proof (C8_startup_protocol count_Update (New O))
    as (_ & Hconn & _ & _ & _ & _ & _ & _ & Honly).
  destruct (Hconn cluster) as (m' & Hup & Hcl & _ & Hl & _).
  exists m'. split; [exact Hup|]. split; [exact Hcl|]. split; [exact Hl|].
  apply (Honly _ _ _ Hup).
Defined.

Lemma C9_back_changes_only_the_view_witness :
  (currentView (after detail_script) = DetailView
   \/ currentView (after detail_script) = NamespaceView)
  /\ exists m' c,
      Update count_Update (after detail_script) (KeyMsg "esc") = Ok (m', c)
      /\ currentView m' = PodView
      /\ namespaces m' = namespaces (after detail_script)
      /\ resourceData m' = resourceData (after detail_script)
      /\ detailContent m' = detailContent (after detail_script)
      /\ currentNS m' = currentNS (after detail_script)
      /\ selectedItem m' = selectedItem (after detail_script)
      /\ loading m' = loading (after detail_script)
      /\ error m' = error (after detail_script)
      /\ scheduled c = [].
Proof.
  split; [left; vm_compute; reflexivity|].
  apply (C9_back_changes_only_the_view count_Update (after detail_script)).
  left. vm_compute. reflexivity.
Defined.

(** ** More behaviour of [Update] *)

Section Behaviour.

Local Set Default Proof Using "Type".

Context {spinner_Model spinner_TickMsg spinner_Cmd : Type}.
Variable spinner_New : spinner_Model.
Variable spinner_Update :
  spinner_Model -> @Msg spinner_TickMsg -> spinner_Model * option spinner_Cmd.

Implicit Types (m : @Model spinner_Model) (msg : @Msg spinner_TickMsg).
Implicit Types (c : option (@Cmd spinner_Model spinner_Cmd)) (k : string).

(** Case analysis on the key, arm by arm. *)
Ltac on_key k :=
  unfold Update_key in *;
  repeat (match goal with
          | |- context [String.eqb k ?lit] =>
              destruct (String.eqb_spec k lit) as [->|?]
          | H : context [String.eqb k ?lit] |- _ =>
              destruct (String.eqb_spec k lit) as [->|?]
          end;
          cbn [String.eqb Ascii.eqb Bool.eqb orb andb negb] in *).

(** *** Indexing *)

Lemma slice_index_in_range {A : Type} (s : list A) (i : Z) :
  0 <= i < len s ->
  exists x, slice_index s i = Ok x /\ s !! Z.to_nat i = Some x.
Proof.
  intros Hi. unfold slice_index.
  destruct (Z.ltb_spec i 0); [lia|]. destruct (Z.leb_spec (len s) i); [lia|]. simpl.
  destruct (s !! Z.to_nat i) as [x|] eqn:Hx; [eauto|].
  apply lookup_ge_None in Hx. unfold len in *. lia.
Qed.

Lemma slice_index_out_of_range {A : Type} (s : list A) (i : Z) :
  ~ (0 <= i < len s) -> slice_index s i = Panic.
Proof.
  intros Hi. unfold slice_index.
  destruct (Z.ltb_spec i 0); [done|]. destruct (Z.leb_spec (len s) i); [done|]. lia.
Qed.

(** X1: [Update] panics in one situation only: "enter" is pressed while
    nothing loads, the list of the current view is not empty, and the
    selection lies outside it. *)
Theorem Update_panics_iff m msg :
  Update spinner_Update m msg = Panic
  <-> msg = KeyMsg "enter"
      /\ loading m = false
      /\ exists n, view_len m = Some n /\ 0 < n /\ ~ (0 <= selectedItem m < n).
Proof.
  split.
  - destruct msg as [k| | |? err|? err|? err|? err|? err|? err|]; cbn [Update];
      rewrite ?spinner_pass_eq; try discriminate;
      try (by destruct (spinner_Update _ _));
      try (by destruct err).
    on_key k; rewrite ?spinner_pass_eq; try discriminate;
      try (destruct (loading m); discriminate).
    destruct (loading m) eqn:Hl; cbn [negb]; rewrite ?spinner_pass_eq; [discriminate|].
    unfold view_len.
    destruct (currentView m) eqn:Hview; rewrite ?spinner_pass_eq; try discriminate;
      match goal with
      | |- context [0 <? len ?l] =>
          destruct (Z.ltb_spec 0 (len l)); rewrite ?spinner_pass_eq; [|discriminate];
          destruct (decide (0 <= selectedItem m < len l)) as [Hin|Hout];
          [ destruct (slice_index_in_range l (selectedItem m) Hin) as (x & Hx & _);
            simpl; rewrite Hx; discriminate
          | intros _; do 2 (split; [done|]); eauto ]
      end.
  - intros (-> & Hl & n & Hlen & Hpos & Hout). cbn [Update]. unfold Update_key.
    cbn [String.eqb Ascii.eqb Bool.eqb orb]. rewrite Hl. cbn [negb].
    unfold view_len in Hlen.
    destruct (currentView m); simplify_eq;
      match goal with
      | |- context [0 <? len ?l] =>
          destruct (Z.ltb_spec 0 (len l)); [|lia];
          simpl; by rewrite (slice_index_out_of_range l (selectedItem m) Hout)
      end.
Qed.

(** *** The selection *)

Lemma len_nonneg {A : Type} (s : list A) : 0 <= len s.
Proof. unfold len. lia. Qed.

(** X3: apart from the messages singled out by [may_strand_selection],
    every message that [Update] accepts keeps a good selection good. *)
Theorem selection_kept m msg m' c :
  may_strand_selection m msg = false ->
  selection_ok m ->
  Update spinner_Update m msg = Ok (m', c) ->
  selection_ok m'.
Proof.
  intros Hmay Hok Hup.
  destruct msg as [k| | |? err|? err|? err|? err|? err|? err|];
    cbn [Update] in Hup; rewrite ?spinner_pass_eq in Hup;
    try (destruct (spinner_Update _ _)); try (destruct err);
    simplify_eq; try done.
  unfold may_strand_selection in Hmay. revert Hok Hup.
  unfold selection_ok, view_len.
  pose proof (len_nonneg (Pods (resourceData m))).
  pose proof (len_nonneg (Services (resourceData m))).
  pose proof (len_nonneg (namespaces m)).
  on_key k; try discriminate; intros Hok Hup;
    destruct (loading m), (currentView m) eqn:Hview; cbn [negb andb] in *;
    try discriminate;
    repeat match goal with
           | H : context [?a <? ?b] |- _ => destruct (Z.ltb_spec a b)
           end;
    cbn [negb andb] in *; rewrite ?spinner_pass_eq in Hup;
    try (match type of Hup with
         | context [slice_index ?l ?i] => destruct (slice_index l i)
         end);
    simplify_eq; simpl; rewrite ?Hview; simpl; try done; lia.
Qed.

(** One cursor key: accepted, fetches nothing, keeps the view and its
    list, and keeps a good selection good. *)
Lemma cursor_step m k :
  k ∈ ["up"; "k"; "down"; "j"] ->
  exists m' c,
    Update spinner_Update m (KeyMsg k) = Ok (m', c)
    /\ scheduled c = []
    /\ view_len m' = view_len m
    /\ (selection_ok m -> selection_ok m').
Proof.
  clear spinner_New. intros Hk.
  assert (exists m' c, Update spinner_Update m (KeyMsg k) = Ok (m', c)
                       /\ scheduled c = [] /\ view_len m' = view_len m)
    as (m' & c & Hup & Hc & Hlen).
  { assert (k = "up" \/ k = "k" \/ k = "down" \/ k = "j") as [-> | [-> | [-> | ->]]]
      by (repeat (apply elem_of_cons in Hk as [?|Hk]; [tauto|]); by apply elem_of_nil in Hk).
    all: cbn [Update]; unfold Update_key; cbn [String.eqb Ascii.eqb Bool.eqb orb];
      rewrite spinner_pass_eq; do 2 eexists; (split; [reflexivity|]);
      rewrite scheduled_spinner_cmd; (split; [reflexivity|]);
      unfold view_len; simpl;
      destruct (loading m); simpl; try done;
      destruct (currentView m) eqn:Hview; simpl; rewrite ?Hview;
      repeat match goal with
             | |- context [?a <? ?b] => destruct (Z.ltb_spec a b); simpl; rewrite ?Hview
             end; done. }
  exists m', c. repeat split; try done.
  intros Hok. by apply (cursor_keeps_selection spinner_Update m k m' c).
Qed.

(** X2: any sequence of cursor keys ("up", "k", "down", "j") is accepted
    without a panic, and a selection that was good at the start is good at
    the end, in the same list. *)
Theorem cursor_keys_keep_selection m (keys : list string) :
  Forall (fun k => k ∈ ["up"; "k"; "down"; "j"]) keys ->
  selection_ok m ->
  exists m',
    run spinner_Update m (KeyMsg <$> keys) = Ok m'
    /\ view_len m' = view_len m
    /\ selection_ok m'.
Proof.
  intros Hkeys. revert m. induction Hkeys as [|k keys Hk _ IH]; intros m Hok.
  - exists m. by repeat split.
  - destruct (cursor_step m k Hk) as (m1 & c & Hup & _ & Hlen & Hkeep).
    destruct (IH m1 (Hkeep Hok)) as (m' & Hrun & Hlen' & Hok').
    exists m'. cbn [fmap list_fmap run]. rewrite Hup.
    split; [exact Hrun|]. split; [congruence | done].
Qed.

(** *** The namespace picker *)

Lemma range_find_Some (nss : list string) (cur : string) (i j : Z) :
  range_find nss cur i = Some j ->
  i <= j < i + len nss
  /\ nss !! Z.to_nat (j - i) = Some cur
  /\ forall p, (p < Z.to_nat (j - i))%nat -> nss !! p ≠ Some cur.
Proof.
  revert i. induction nss as [|ns rest IH]; intros i; simpl; [done|].
  destruct (String.eqb_spec ns cur) as [->|Hne].
  - intros [= <-]. unfold len. simpl. replace (i - i) with 0 by lia.
    repeat split; try lia; try done.
    all: intros p Hp; simpl in Hp; lia.
  - intros Hfind. destruct (IH _ Hfind) as (Hrange & Hat & Hfirst).
    unfold len in *. simpl length.
    replace (Z.to_nat (j - i)) with (S (Z.to_nat (j - (i + 1)))) by lia.
    repeat split; try lia; try done.
    intros [|p] Hp; simpl; [congruence|]. apply Hfirst. lia.
Qed.

Lemma range_find_None (nss : list string) (cur : string) (i : Z) :
  range_find nss cur i = None <-> cur ∉ nss.
Proof.
  revert i. induction nss as [|ns rest IH]; intros i; simpl.
  - split; [intros _; apply not_elem_of_nil | done].
  - rewrite not_elem_of_cons. destruct (String.eqb_spec ns cur) as [->|Hne].
    + split; [done | by intros [? _]].
    + rewrite IH. split; [intros ?; split; [congruence | done] | by intros [_ ?]].
Qed.

(** X4: when nothing loads and the current namespace is in the list, "n"
    opens the picker with the selection on the first entry that holds the
    current namespace; the selection is good and nothing is fetched. *)
Theorem picker_opens_on_current m :
  loading m = false ->
  currentNS m ∈ namespaces m ->
  exists m' c,
    Update spinner_Update m (KeyMsg "n") = Ok (m', c)
    /\ scheduled c = []
    /\ currentView m' = NamespaceView
    /\ namespaces m' = namespaces m
    /\ 0 <= selectedItem m' < len (namespaces m)
    /\ namespaces m !! Z.to_nat (selectedItem m') = Some (currentNS m)
    /\ (forall p, (p < Z.to_nat (selectedItem m'))%nat ->
         namespaces m !! p ≠ Some (currentNS m))
    /\ selection_ok m'.
Proof.
  intros Hl Hin. cbn [Update]. unfold Update_key.
  cbn [String.eqb Ascii.eqb Bool.eqb orb]. rewrite Hl. cbn [negb].
  rewrite spinner_pass_eq. do 2 eexists. split; [reflexivity|].
  rewrite scheduled_spinner_cmd. split; [reflexivity|]. simpl.
  destruct (range_find (namespaces m) (currentNS m) 0) as [j|] eqn:Hfind.
  - destruct (range_find_Some _ _ _ _ Hfind) as (Hrange & Hat & Hfirst).
    replace (j - 0) with j in * by lia.
    unfold selection_ok, view_len. simpl. repeat split; try done; try lia.
  - apply range_find_None in Hfind. done.
Qed.

(** X5: opening the picker and pressing "enter" at once is a refresh of
    the current namespace: the namespace stays, the pod view is back,
    [loading] is set, and the snapshot of the current namespace is the one
    fetch scheduled. *)
Theorem picker_round_trip m :
  loading m = false ->
  currentNS m ∈ namespaces m ->
  exists m1 c1 m2 c2,
    Update spinner_Update m (KeyMsg "n") = Ok (m1, c1)
    /\ Update spinner_Update m1 (KeyMsg "enter") = Ok (m2, c2)
    /\ scheduled c1 = []
    /\ scheduled c2 = [getResources (client m) (currentNS m)]
    /\ currentNS m2 = currentNS m
    /\ currentView m2 = PodView
    /\ loading m2 = true
    /\ namespaces m2 = namespaces m
    /\ resourceData m2 = resourceData m.
Proof.
  intros Hl Hin.
  destruct (range_find (namespaces m) (currentNS m) 0) as [j|] eqn:Hfind;
    [|by apply range_find_None in Hfind].
  destruct (range_find_Some _ _ _ _ Hfind) as (Hrange & Hat & _).
  replace (j - 0) with j in * by lia.
  destruct (slice_index_in_range (namespaces m) j ltac:(lia)) as (ns & Hns & Hat').
  assert (ns = currentNS m) as -> by congruence.
  assert (Update spinner_Update m (KeyMsg "n")
          = Ok (set_spinner (spinner_Update (spinner m) (KeyMsg "n")).1
                  (set_selectedItem j (set_currentView NamespaceView m)),
                spinner_cmd <$> (spinner_Update (spinner m) (KeyMsg "n")).2)) as Hopen.
  { cbn [Update]. unfold Update_key. cbn [String.eqb Ascii.eqb Bool.eqb orb].
    rewrite Hl. cbn [negb]. rewrite spinner_pass_eq. simpl. by rewrite Hfind. }
  do 4 eexists. split; [exact Hopen|].
  cbn [Update]. unfold Update_key. cbn [String.eqb Ascii.eqb Bool.eqb orb]. simpl.
  rewrite Hl. cbn [negb].
  destruct (Z.ltb_spec 0 (len (namespaces m))); [|lia].
  rewrite Hns. split; [reflexivity|].
  rewrite scheduled_spinner_cmd. by repeat split.
Qed.

(** *** What a message can change *)

(** A key leaves the error text, the context, the client, the window size
    and the fetched data alone. *)
Lemma key_frame m k m' c :
  Update spinner_Update m (KeyMsg k) = Ok (m', c) ->
  error m' = error m
  /\ context m' = context m
  /\ client m' = client m
  /\ namespaces m' = namespaces m
  /\ resourceData m' = resourceData m
  /\ detailContent m' = detailContent m
  /\ width m' = width m /\ height m' = height m.
Proof.
  cbn [Update]. intros Hup. on_key k;
    repeat case_match; rewrite ?spinner_pass_eq in Hup; by simplify_eq.
Qed.

(** While [loading] is set a key changes neither the current namespace nor
    the selection. *)
Lemma key_frame_loading m k m' c :
  loading m = true ->
  Update spinner_Update m (KeyMsg k) = Ok (m', c) ->
  currentNS m' = currentNS m /\ selectedItem m' = selectedItem m.
Proof.
  cbn [Update]. intros Hl Hup. on_key k; rewrite ?Hl in Hup; cbn [negb andb] in Hup;
    rewrite ?spinner_pass_eq in Hup; simplify_eq; try done.
  by destruct (currentView m).
Qed.

Lemma error_step m msg m' c :
  Update spinner_Update m msg = Ok (m', c) ->
  error m ≠ "" -> error m' ≠ "".
Proof.
  intros Hup Herr.
  destruct msg as [k| | |? err|? err|? err|? err|? err|? err|].
  - destruct (key_frame _ _ _ _ Hup) as (-> & _). done.
  - cbn [Update] in Hup. rewrite spinner_pass_eq in Hup. by simplify_eq.
  - cbn [Update] in Hup. destruct (spinner_Update _ _). by simplify_eq.
  - cbn [Update] in Hup. destruct err; by simplify_eq.
  - cbn [Update] in Hup. destruct err; by simplify_eq.
  - cbn [Update] in Hup. destruct err; by simplify_eq.
  - cbn [Update] in Hup. destruct err; by simplify_eq.
  - cbn [Update] in Hup. destruct err; by simplify_eq.
  - cbn [Update] in Hup. destruct err; by simplify_eq.
  - cbn [Update] in Hup. rewrite spinner_pass_eq in Hup. by simplify_eq.
Qed.

(** X6: an error text, once recorded, is never cleared, whatever messages
    follow; so every later frame that [View] draws is the loading frame or
    the error frame, never a list, a detail text or the picker. *)
Theorem error_is_sticky (spinner_View : spinner_Model -> string) (ui : Renderer)
    m (msgs : list (@Msg spinner_TickMsg)) m' :
  error m ≠ "" ->
  run spinner_Update m msgs = Ok m' ->
  error m' ≠ ""
  /\ View spinner_View ui m'
     = if loading m'
       then RenderLoadingView ui (spinner_View (spinner m')) (message m')
       else RenderErrorView ui (error m').
Proof.
  intros Herr Hrun.
  assert (error m' ≠ "") as Herr'.
  { revert m Herr Hrun. induction msgs as [|msg rest IH]; intros m Herr Hrun;
      simpl in Hrun; [by simplify_eq|].
    destruct (Update spinner_Update m msg) as [[m1 c]|] eqn:Hup; [|discriminate].
    apply (IH m1); [by eapply error_step | done]. }
  split; [done|]. unfold View. destruct (loading m'); [done|].
  by destruct (String.eqb_spec (error m') "").
Qed.

(** X7: the view changes along six edges only, each on one key: "p" and
    "s" when nothing loads, "esc" out of the detail view or the picker,
    "enter" from a list into the detail view or from the picker to the pod
    view (both set [loading]), and "n" into the picker when nothing loads.
    In particular a completion never changes the view and the picker never
    leads to the detail view. *)
Theorem view_edges m msg m' c :
  Update spinner_Update m msg = Ok (m', c) ->
  currentView m' ≠ currentView m ->
  exists k,
    msg = KeyMsg k
    /\ ((k = "p" /\ loading m = false /\ currentView m' = PodView)
        \/ (k = "s" /\ loading m = false /\ currentView m' = ServiceView)
        \/ (k = "esc"
            /\ (currentView m = DetailView \/ currentView m = NamespaceView)
            /\ currentView m' = PodView)
        \/ (k = "enter" /\ loading m = false /\ loading m' = true
            /\ (currentView m = PodView \/ currentView m = ServiceView)
            /\ currentView m' = DetailView)
        \/ (k = "enter" /\ loading m = false /\ loading m' = true
            /\ currentView m = NamespaceView
            /\ currentView m' = PodView)
        \/ (k = "n" /\ loading m = false /\ currentView m' = NamespaceView)).
Proof.
  clear spinner_New. intros Hup Hview.
  destruct msg as [k| | |? err|? err|? err|? err|? err|? err|];
    cbn [Update] in Hup; rewrite ?spinner_pass_eq in Hup;
    try (destruct (spinner_Update _ _)); try (destruct err);
    simplify_eq; try done.
  exists k. split; [done|]. revert Hup Hview.
  on_key k; intros Hup Hview;
    destruct (loading m) eqn:Hl, (currentView m) eqn:Hcur; cbn [negb andb] in *;
    repeat case_match; rewrite ?spinner_pass_eq in Hup; simplify_eq;
    simpl in *; rewrite ?Hcur in *; try done; tauto.
Qed.

(** X8: "enter" on a list view with the selection inside the list asks for
    the detail of exactly the selected item, by its namespace and name,
    with the model's client; the view becomes the detail view, [loading]
    becomes true, and no other field changes. *)
Theorem activate_fetches_selected m :
  loading m = false ->
  (currentView m = PodView ->
   0 <= selectedItem m < len (Pods (resourceData m)) ->
   exists selectedPod m',
     Pods (resourceData m) !! Z.to_nat (selectedItem m) = Some selectedPod
     /\ Update spinner_Update m (KeyMsg "enter")
        = Ok (m', Some (tea_Batch
                          [spinner_Tick (spinner m);
                           getPodDetail (client m)
                             (Namespace selectedPod) (Name selectedPod)]))
     /\ currentView m' = DetailView
     /\ loading m' = true
     /\ selectedItem m' = selectedItem m
     /\ resourceData m' = resourceData m
     /\ detailContent m' = detailContent m
     /\ error m' = error m
     /\ differs_only [F_currentView; F_loading] m m')
  /\ (currentView m = ServiceView ->
      0 <= selectedItem m < len (Services (resourceData m)) ->
      exists selectedSvc m',
        Services (resourceData m) !! Z.to_nat (selectedItem m) = Some selectedSvc
        /\ Update spinner_Update m (KeyMsg "enter")
           = Ok (m', Some (tea_Batch
                             [spinner_Tick (spinner m);
                              getServiceDetail (client m)
                                (sNamespace selectedSvc) (sName selectedSvc)]))
        /\ currentView m' = DetailView
        /\ loading m' = true
        /\ selectedItem m' = selectedItem m
        /\ resourceData m' = resourceData m
        /\ detailContent m' = detailContent m
        /\ error m' = error m
        /\ differs_only [F_currentView; F_loading] m m').
Proof.
  intros Hl. split; intros Hview Hsel.
  - destruct (slice_index_in_range _ _ Hsel) as (x & Hx & Hat).
    exists x. eexists. split; [done|].
    cbn [Update]. unfold Update_key. cbn [String.eqb Ascii.eqb Bool.eqb orb].
    rewrite Hl, Hview. cbn [negb].
    destruct (Z.ltb_spec 0 (len (Pods (resourceData m)))); [|lia].
    cbn. rewrite Hx. split; [reflexivity|].
    cbn. repeat (split; [reflexivity|]). frame.
  - destruct (slice_index_in_range _ _ Hsel) as (x & Hx & Hat).
    exists x. eexists. split; [done|].
    cbn [Update]. unfold Update_key. cbn [String.eqb Ascii.eqb Bool.eqb orb].
    rewrite Hl, Hview. cbn [negb].
    destruct (Z.ltb_spec 0 (len (Services (resourceData m)))); [|lia].
    cbn. rewrite Hx. split; [reflexivity|].
    cbn. repeat (split; [reflexivity|]). frame.
Qed.

(** A key changes the current namespace only as "enter" in the picker,
    while nothing loads, and then to an entry of the namespace list. *)
Lemma key_currentNS m k m' c :
  Update spinner_Update m (KeyMsg k) = Ok (m', c) ->
  currentNS m' = currentNS m
  \/ (k = "enter" /\ currentView m = NamespaceView /\ loading m = false
      /\ currentNS m' ∈ namespaces m).
Proof.
  cbn [Update]. intros Hup. revert Hup.
  on_key k; intros Hup;
    destruct (loading m) eqn:Hl, (currentView m) eqn:Hview; cbn [negb andb] in *;
    repeat case_match; rewrite ?spinner_pass_eq in Hup; simplify_eq;
    simpl in *; auto.
  right. repeat split; try done.
  match goal with
  | H : slice_index (namespaces m) ?i = Ok ?ns |- _ =>
      unfold slice_index in H; repeat case_match; simplify_eq;
      by eapply list_elem_of_lookup_2
  end.
Qed.

(** X9: where each piece of data can come from.  The snapshot changes only
    on a successful [resourcesMsg], the namespace list only on a successful
    [namespacesMsg], the detail text only on a successful detail message,
    the client only on a successful connection, the context only on a
    [contextInfoMsg]; and the current namespace changes only on "enter" in
    the picker while nothing loads, to an entry of the namespace list. *)
Theorem data_provenance m msg m' c :
  Update spinner_Update m msg = Ok (m', c) ->
  (resourceData m' ≠ resourceData m -> msg = resourcesMsg (resourceData m') None)
  /\ (namespaces m' ≠ namespaces m -> msg = namespacesMsg (namespaces m') None)
  /\ (detailContent m' ≠ detailContent m ->
      msg = podDetailMsg (detailContent m') None
      \/ msg = serviceDetailMsg (detailContent m') None)
  /\ (client m' ≠ client m -> msg = k8sClientMsg (client m') None)
  /\ (context m' ≠ context m -> exists ctx err, msg = contextInfoMsg ctx err)
  /\ (currentNS m' ≠ currentNS m ->
      msg = KeyMsg "enter" /\ currentView m = NamespaceView /\ loading m = false
      /\ currentNS m' ∈ namespaces m).
Proof.
  intros Hup.
  destruct msg as [k| | |? err|? err|? err|? err|? err|? err|].
  - destruct (key_frame _ _ _ _ Hup) as (_ & Hctx & Hcl & Hns & Hrd & Hdc & _).
    do 5 (split; [congruence|]). intros Hcur.
    destruct (key_currentNS _ _ _ _ Hup) as [?|(-> & ? & ? & ?)]; [congruence | done].
  - cbn [Update] in Hup. rewrite spinner_pass_eq in Hup. by simplify_eq.
  - cbn [Update] in Hup. destruct (spinner_Update _ _). by simplify_eq.
  - cbn [Update] in Hup. destruct err; simplify_eq; simpl; by repeat split.
  - cbn [Update] in Hup. destruct err; simplify_eq; simpl; repeat split; try done; eauto.
  - cbn [Update] in Hup. destruct err; simplify_eq; simpl; by repeat split.
  - cbn [Update] in Hup. destruct err; simplify_eq; simpl; by repeat split.
  - cbn [Update] in Hup. destruct err; simplify_eq; simpl; repeat split; try done; eauto.
  - cbn [Update] in Hup. destruct err; simplify_eq; simpl; repeat split; try done; eauto.
  - cbn [Update] in Hup. rewrite spinner_pass_eq in Hup. by simplify_eq.
Qed.

(** *** Invariants of the event loop *)

Lemma scheduled_current m msg m' c f :
  Update spinner_Update m msg = Ok (m', c) ->
  f ∈ scheduled c -> fetch_current m' f.
Proof.
  intros Hup Hin.
  destruct msg as [k| | |? err|? err|? err|? err|? err|? err|];
    cbn [Update] in Hup; rewrite ?spinner_pass_eq in Hup;
    try (destruct (spinner_Update _ _) as [? o]);
    try (destruct err); simplify_eq;
    rewrite ?scheduled_spinner_cmd in Hin; simpl in Hin;
    rewrite ?elem_of_nil, ?list_elem_of_singleton in Hin; subst; try done.
  revert Hup Hin. on_key k; intros Hup Hin;
    destruct (loading m) eqn:Hl, (currentView m) eqn:Hview; cbn [negb andb] in *;
    repeat case_match; rewrite ?spinner_pass_eq in Hup; simplify_eq;
    rewrite ?scheduled_spinner_cmd in Hin; simpl in Hin;
    rewrite ?elem_of_nil, ?list_elem_of_singleton in Hin; subst; done.
Qed.

(** An input that arrives while [loading] is set changes neither the
    client nor the current namespace. *)
Lemma input_frame_loading m msg m' c :
  is_input msg = true ->
  loading m = true ->
  Update spinner_Update m msg = Ok (m', c) ->
  client m' = client m /\ currentNS m' = currentNS m.
Proof.
  destruct msg as [k| | | | | | | | |]; try discriminate; intros _ Hl Hup.
  - destruct (key_frame _ _ _ _ Hup) as (_ & _ & ? & _).
    by destruct (key_frame_loading _ _ _ _ Hl Hup).
  - cbn [Update] in Hup. rewrite spinner_pass_eq in Hup. by simplify_eq.
  - cbn [Update] in Hup. destruct (spinner_Update _ _). by simplify_eq.
  - cbn [Update] in Hup. rewrite spinner_pass_eq in Hup. by simplify_eq.
Qed.

Lemma fetch_current_ext m m' (f : @Cmd spinner_Model spinner_Cmd) :
  client m' = client m -> currentNS m' = currentNS m ->
  fetch_current m f -> fetch_current m' f.
Proof. intros Hcl Hns. destruct f; simpl; congruence. Qed.

Lemma pending_one (before rest : list (@Cmd spinner_Model spinner_Cmd)) f f0 :
  [f0] = before ++ f :: rest -> before = [] /\ rest = [] /\ f = f0.
Proof. destruct before as [|? [|? ?]]; intros; simplify_eq/=; auto. Qed.

(** X10: in every state the event loop can reach, a pending fetch was
    built from the client the model holds now, and a pending snapshot fetch
    asks for the namespace that is current now: the snapshot that comes
    back is the one of the namespace on display. *)
Theorem pending_fetch_is_current (r : Runtime) :
  reachable spinner_New spinner_Update r ->
  forall f, f ∈ pending r -> fetch_current (current r) f.
Proof.
  unfold reachable.
  apply (rtc_ind_r (fun r => forall f, f ∈ pending r -> fetch_current (current r) f)).
  - simpl. intros f Hin. apply list_elem_of_singleton in Hin. by subst.
  - intros r1 r2 Hreach Hstep IH.
    pose proof (reachable_single_flight spinner_New spinner_Update r1 Hreach) as Hone.
    inversion Hstep as [? msg m' c Hin Hup
                       | ? before f0 rest msg m' c Hpend Hcomp Hup]; subst; simpl.
    + intros f Hf. apply elem_of_app in Hf as [Hf | Hf];
        [|by eapply scheduled_current].
      destruct Hone as [Hnil | [Hl _]]; [rewrite Hnil in Hf; by apply elem_of_nil in Hf|].
      destruct (input_frame_loading _ _ _ _ Hin Hl Hup) as [Hcl Hns].
      eapply fetch_current_ext; eauto.
    + destruct Hone as [Hnil | [Hl (f1 & Hf1)]].
      { rewrite Hnil in Hpend. by destruct before. }
      rewrite Hf1 in Hpend. apply pending_one in Hpend as (-> & -> & ->). simpl.
      intros f Hf. by eapply scheduled_current.
Qed.

Lemma completion_frame m msg m' c :
  is_input msg = false ->
  Update spinner_Update m msg = Ok (m', c) ->
  currentNS m' = currentNS m
  /\ (namespaces m' = namespaces m \/ exists nss, msg = namespacesMsg nss None).
Proof.
  destruct msg as [| | |? err|? err|? err|? err|? err|? err|];
    try discriminate; intros _ Hup; cbn [Update] in Hup;
    destruct err; simplify_eq; simpl; eauto.
Qed.

Lemma completes_user_fetch (f : @Cmd spinner_Model spinner_Cmd) msg :
  completes f msg -> user_fetch f = true ->
  is_input msg = false /\ forall nss, msg ≠ namespacesMsg nss None.
Proof.
  intros Hcomp Huser. destruct Hcomp; try discriminate; simpl.
  - unfold getResources_run. repeat case_match; by split.
  - by split.
  - by split.
Qed.

Lemma completes_not_input (f : @Cmd spinner_Model spinner_Cmd) msg :
  completes f msg -> is_input msg = false.
Proof. intros Hcomp. destruct Hcomp; try done. unfold getResources_run. by repeat case_match. Qed.

(** X11: in every state the event loop can reach, the current namespace
    is "default" or an entry of the namespace list. *)
Theorem current_namespace_is_listed (r : Runtime) :
  reachable spinner_New spinner_Update r ->
  currentNS (current r) = "default"
  \/ currentNS (current r) ∈ namespaces (current r).
Proof.
  intros Hr. cut (namespace_known r); [intros [?|[? _]]; auto|].
  revert r Hr. unfold reachable. apply (rtc_ind_r (fun r => namespace_known r)).
  - by left.
  - intros r1 r2 Hreach Hstep IH.
    pose proof (reachable_single_flight spinner_New spinner_Update r1 Hreach) as Hone.
    inversion Hstep as [? msg m' c Hin Hup
                       | ? before f0 rest msg m' c Hpend Hcomp Hup]; subst;
      unfold namespace_known in *; simpl.
    + assert (Forall (fun f => user_fetch f = true) (scheduled c)) as Hsched.
      { apply Forall_forall. intros f Hf.
        destruct msg as [k| | | | | | | | |]; try discriminate.
        - by destruct (key_fetch_kind spinner_Update _ _ _ _ _ Hup Hf).
        - cbn [Update] in Hup. rewrite spinner_pass_eq in Hup. simplify_eq.
          rewrite scheduled_spinner_cmd in Hf. by apply elem_of_nil in Hf.
        - cbn [Update] in Hup. destruct (spinner_Update _ _). simplify_eq.
          rewrite scheduled_spinner_cmd in Hf. by apply elem_of_nil in Hf.
        - cbn [Update] in Hup. rewrite spinner_pass_eq in Hup. simplify_eq.
          rewrite scheduled_spinner_cmd in Hf. by apply elem_of_nil in Hf. }
      assert (namespaces m' = namespaces (current r1)
              /\ (currentNS m' = currentNS (current r1)
                  \/ (loading (current r1) = false
                      /\ currentNS m' ∈ namespaces (current r1)))) as [Hns Hcur].
      { destruct msg as [k| | | | | | | | |]; try discriminate.
        - destruct (key_frame _ _ _ _ Hup) as (_ & _ & _ & ? & _).
          split; [done|]. destruct (key_currentNS _ _ _ _ Hup) as [?|(_ & _ & ? & ?)]; auto.
        - cbn [Update] in Hup. rewrite spinner_pass_eq in Hup. simplify_eq. auto.
        - cbn [Update] in Hup. destruct (spinner_Update _ _). simplify_eq. auto.
        - cbn [Update] in Hup. rewrite spinner_pass_eq in Hup. simplify_eq. auto. }
      rewrite Hns. destruct Hcur as [-> | [Hl Hpick]].
      * destruct IH as [?|[? Hpend]]; [by left|]. right. split; [done|].
        by apply Forall_app.
      * right. split; [done|].
        destruct Hone as [-> | [? _]]; [done | congruence].
    + destruct Hone as [Hnil | [Hl (f1 & Hf1)]].
      { rewrite Hnil in Hpend. by destruct before. }
      rewrite Hf1 in Hpend. apply pending_one in Hpend as (-> & -> & ->). simpl.
      pose proof (completes_not_input _ _ Hcomp) as Hni.
      destruct (completion_frame _ _ _ _ Hni Hup) as [Hcur Hns]. rewrite Hcur.
      destruct IH as [?|[Hin Hpend]]; [by left|]. right.
      rewrite Hf1, Forall_singleton in Hpend.
      destruct (completes_user_fetch _ _ Hcomp Hpend) as [_ Hnot].
      destruct Hns as [-> | [nss ->]]; [|by destruct (Hnot nss)].
      split; [done|].
      destruct (completion_schedules spinner_Update _ _ _ _ Hni Hup)
        as [-> | (_ & f' & Hf')]; [done|].
      exfalso. clear -Hcomp Hpend Hup Hf'.
      destruct Hcomp; try discriminate;
        unfold getResources_run in *; repeat case_match;
        cbn [Update] in Hup; repeat case_match; simplify_eq.
Qed.

(** X12: the start-up on the happy path.  From [New], a connection, a
    context answer (good or bad), a namespace list and a snapshot, each
    answering the fetch the step before scheduled, leave the dashboard
    idle in the pod view of "default": nothing pending, [loading] cleared,
    no error, the first item selected, and the payloads stored. *)
Theorem startup_reaches_dashboard (cl : option K8sClient) (ctx : string)
    (cerr : goerror) (nss : list string) (data : ResourceData) :
  exists r,
    drive spinner_Update (boot spinner_New)
      [k8sClientMsg cl None; contextInfoMsg ctx cerr;
       namespacesMsg nss None; resourcesMsg data None] = Some (Ok r)
    /\ reachable spinner_New spinner_Update r
    /\ pending r = []
    /\ loading (current r) = false
    /\ error (current r) = ""
    /\ currentView (current r) = PodView
    /\ selectedItem (current r) = 0
    /\ currentNS (current r) = "default"
    /\ client (current r) = cl
    /\ context (current r) = match cerr with
                             | Some _ => "unknown-context"
                             | None => ctx
                             end
    /\ namespaces (current r) = nss
    /\ resourceData (current r) = data.
Proof.
  eexists. split; [destruct cerr; reflexivity|].
  split.
  - eapply (drive_sound spinner_Update
              [k8sClientMsg cl None; contextInfoMsg ctx cerr;
               namespacesMsg nss None; resourcesMsg data None]).
    destruct cerr; reflexivity.
  - by destruct cerr.
Qed.

End Behaviour.

(** ** The extra facts on the small cluster *)

Lemma after_startup_selection_ok : selection_ok (after startup).
Proof.
  assert (view_len (after startup) = Some 2) as Hlen by (vm_compute; reflexivity).
  assert (selectedItem (after startup) = 0) as Hsel by (vm_compute; reflexivity).
  unfold selection_ok. rewrite Hlen, Hsel. lia.
Defined.

Lemma default_is_listed : currentNS (after startup) ∈ namespaces (after startup).
Proof.
  assert (namespaces (after startup) = ["default"; "kube-system"]) as ->
    by (vm_compute; reflexivity).
  assert (currentNS (after startup) = "default") as -> by (vm_compute; reflexivity).
  by left.
Defined.

Lemma cursor_keys_keep_selection_witness :
  Forall (fun k => k ∈ ["up"; "k"; "down"; "j"]) ["down"; "j"; "up"]
  /\ selection_ok (after startup)
  /\ exists m',
      run count_Update (after startup) (KeyMsg <$> ["down"; "j"; "up"]) = Ok m'
      /\ view_len m' = view_len (after startup)
      /\ selection_ok m'.
Proof.
  assert (Forall (fun k => k ∈ ["up"; "k"; "down"; "j"]) ["down"; "j"; "up"]) as Hkeys.
  { repeat constructor. }
  split; [exact Hkeys|]. split; [exact after_startup_selection_ok|].
  exact (cursor_keys_keep_selection count_Update (after startup) ["down"; "j"; "up"]
           Hkeys after_startup_selection_ok).
Defined.

Lemma selection_kept_witness :
  may_strand_selection (after startup) (KeyMsg (spinner_TickMsg := unit) "down") = false
  /\ selection_ok (after startup)
  /\ Update count_Update (after startup) (KeyMsg "down")
     = Ok (after (startup ++ [KeyMsg "down"]), None)
  /\ selection_ok (after (startup ++ [KeyMsg "down"])).
Proof.
  assert (may_strand_selection (after startup) (KeyMsg (spinner_TickMsg := unit) "down")
          = false) as Hmay by (vm_compute; reflexivity).
  assert (Update count_Update (after startup) (KeyMsg "down")
          = Ok (after (startup ++ [KeyMsg "down"]), None)) as Hup
    by (vm_compute; reflexivity).
  split; [exact Hmay|]. split; [exact after_startup_selection_ok|]. split; [exact Hup|].
  exact (selection_kept count_Update _ _ _ _ Hmay after_startup_selection_ok Hup).
Defined.

Lemma picker_opens_on_current_witness :
  loading (after startup) = false
  /\ currentNS (after startup) ∈ namespaces (after startup)
  /\ exists m' c,
      Update count_Update (after startup) (KeyMsg "n") = Ok (m', c)
      /\ scheduled c = []
      /\ currentView m' = NamespaceView
      /\ namespaces m' = namespaces (after startup)
      /\ 0 <= selectedItem m' < len (namespaces (after startup))
      /\ namespaces (after startup) !! Z.to_nat (selectedItem m')
         = Some (currentNS (after startup))
      /\ (forall p, (p < Z.to_nat (selectedItem m'))%nat ->
           namespaces (after startup) !! p ≠ Some (currentNS (after startup)))
      /\ selection_ok m'.
Proof.
  assert (loading (after startup) = false) as Hl by (vm_compute; reflexivity).
  split; [exact Hl|]. split; [exact default_is_listed|].
  exact (picker_opens_on_current count_Update (after startup) Hl default_is_listed).
Defined.

Lemma picker_round_trip_witness :
  loading (after startup) = false
  /\ currentNS (after startup) ∈ namespaces (after startup)
  /\ exists m1 c1 m2 c2,
      Update count_Update (after startup) (KeyMsg "n") = Ok (m1, c1)
      /\ Update count_Update m1 (KeyMsg "enter") = Ok (m2, c2)
      /\ scheduled c1 = []
      /\ scheduled c2 = [getResources (client (after startup)) (currentNS (after startup))]
      /\ currentNS m2 = currentNS (after startup)
      /\ currentView m2 = PodView
      /\ loading m2 = true
      /\ namespaces m2 = namespaces (after startup)
      /\ resourceData m2 = resourceData (after startup).
Proof.
  assert (loading (after startup) = false) as Hl by (vm_compute; reflexivity).
  split; [exact Hl|]. split; [exact default_is_listed|].
  exact (picker_round_trip count_Update (after startup) Hl default_is_listed).
Defined.

Lemma error_is_sticky_witness :
  error (after retry_script) ≠ ""
  /\ run count_Update (after retry_script) [resourcesMsg two_pods None; KeyMsg "p"]
     = Ok (after recovered_script)
  /\ error (after recovered_script) ≠ ""
  /\ View count_View tag_ui (after recovered_script)
     = if loading (after recovered_script)
       then RenderLoadingView tag_ui
              (count_View (spinner (after recovered_script)))
              (message (after recovered_script))
       else RenderErrorView tag_ui (error (after recovered_script)).
Proof.
  assert (error (after retry_script) ≠ "") as Herr.
  { assert (error (after retry_script) = "Error fetching resources: timeout") as ->
      by (vm_compute; reflexivity).
    discriminate. }
  assert (run count_Update (after retry_script) [resourcesMsg two_pods None; KeyMsg "p"]
          = Ok (after recovered_script)) as Hrun
    by (vm_compute; reflexivity).
  split; [exact Herr|]. split; [exact Hrun|].
  exact (error_is_sticky count_Update count_View tag_ui _ _ _ Herr Hrun).
Defined.

Lemma view_edges_witness :
  Update count_Update (after startup) (KeyMsg "s")
  = Ok (after (startup ++ [KeyMsg "s"]), None)
  /\ currentView (after (startup ++ [KeyMsg "s"])) ≠ currentView (after startup)
  /\ exists k,
      KeyMsg (spinner_TickMsg := unit) "s" = KeyMsg k
      /\ ((k = "p" /\ loading (after startup) = false
           /\ currentView (after (startup ++ [KeyMsg "s"])) = PodView)
          \/ (k = "s" /\ loading (after startup) = false
              /\ currentView (after (startup ++ [KeyMsg "s"])) = ServiceView)
          \/ (k = "esc"
              /\ (currentView (after startup) = DetailView
                  \/ currentView (after startup) = NamespaceView)
              /\ currentView (after (startup ++ [KeyMsg "s"])) = PodView)
          \/ (k = "enter" /\ loading (after startup) = false
              /\ loading (after (startup ++ [KeyMsg "s"])) = true
              /\ (currentView (after startup) = PodView
                  \/ currentView (after startup) = ServiceView)
              /\ currentView (after (startup ++ [KeyMsg "s"])) = DetailView)
          \/ (k = "enter" /\ loading (after startup) = false
              /\ loading (after (startup ++ [KeyMsg "s"])) = true
              /\ currentView (after startup) = NamespaceView
              /\ currentView (after (startup ++ [KeyMsg "s"])) = PodView)
          \/ (k = "n" /\ loading (after startup) = false
              /\ currentView (after (startup ++ [KeyMsg "s"])) = NamespaceView)).
Proof.
  assert (Update count_Update (after startup) (KeyMsg "s")
          = Ok (after (startup ++ [KeyMsg "s"]), None)) as Hup
    by (vm_compute; reflexivity).
  assert (currentView (after (startup ++ [KeyMsg "s"])) = ServiceView) as Hs
    by (vm_compute; reflexivity).
  assert (currentView (after startup) = PodView) as Hp by (vm_compute; reflexivity).
  assert (currentView (after (startup ++ [KeyMsg "s"])) ≠ currentView (after startup))
    as Hne by (rewrite Hs, Hp; discriminate).
  split; [exact Hup|]. split; [exact Hne|].
  exact (view_edges count_Update _ _ _ _ Hup Hne).
Defined.

Lemma activate_fetches_selected_witness :
  loading (after startup) = false
  /\ currentView (after startup) = PodView
  /\ 0 <= selectedItem (after startup) < len (Pods (resourceData (after startup)))
  /\ exists selectedPod m',
      Pods (resourceData (after startup)) !! Z.to_nat (selectedItem (after startup))
      = Some selectedPod
      /\ Update count_Update (after startup) (KeyMsg "enter")
         = Ok (m', Some (tea_Batch
                           [spinner_Tick (spinner (after startup));
                            getPodDetail (client (after startup))
                              (Namespace selectedPod) (Name selectedPod)]))
      /\ currentView m' = DetailView
      /\ loading m' = true
      /\ selectedItem m' = selectedItem (after startup)
      /\ resourceData m' = resourceData (after startup)
      /\ detailContent m' = detailContent (after startup)
      /\ error m' = error (after startup)
      /\ differs_only [F_currentView; F_loading] (after startup) m'.
Proof.
  assert (loading (after startup) = false) as Hl by (vm_compute; reflexivity).
  assert (currentView (after startup) = PodView) as Hv by (vm_compute; reflexivity).
  assert (0 <= selectedItem (after startup) < len (Pods (resourceData (after startup))))
    as Hsel.
  { assert (selectedItem (after startup) = 0) as -> by (vm_compute; reflexivity).
    assert (len (Pods (resourceData (after startup))) = 2) as ->
      by (vm_compute; reflexivity).
    lia. }
  split; [exact Hl|]. split; [exact Hv|]. split; [exact Hsel|].
  exact (proj1 (activate_fetches_selected count_Update (after startup) Hl) Hv Hsel).
Defined.

Lemma data_provenance_witness :
  Update count_Update (after (startup ++ [KeyMsg "r"])) (resourcesMsg one_pod None)
  = Ok (after (startup ++ [KeyMsg "r"; resourcesMsg one_pod None]), None)
  /\ (resourceData (after (startup ++ [KeyMsg "r"; resourcesMsg one_pod None]))
      ≠ resourceData (after (startup ++ [KeyMsg "r"])) ->
      resourcesMsg (spinner_TickMsg := unit) one_pod None
      = resourcesMsg
          (resourceData (after (startup ++ [KeyMsg "r"; resourcesMsg one_pod None]))) None).
Proof.
  assert (Update count_Update (after (startup ++ [KeyMsg "r"])) (resourcesMsg one_pod None)
          = Ok (after (startup ++ [KeyMsg "r"; resourcesMsg one_pod None]), None)) as Hup
    by (vm_compute; reflexivity).
  split; [exact Hup|].
  exact (proj1 (data_provenance count_Update _ _ _ _ Hup)).
Defined.

Lemma pending_fetch_is_current_witness :
  reachable O count_Update (played (startup ++ [KeyMsg "r"]))
  /\ forall f, f ∈ pending (played (startup ++ [KeyMsg "r"])) ->
               fetch_current (after (startup ++ [KeyMsg "r"])) f.
Proof.
  assert (reachable O count_Update (played (startup ++ [KeyMsg "r"]))) as Hreach.
  { apply (drive_sound count_Update (startup ++ [KeyMsg "r"])). vm_compute. reflexivity. }
  split; [exact Hreach|].
  exact (pending_fetch_is_current O count_Update _ Hreach).
Defined.

Lemma current_namespace_is_listed_witness :
  reachable O count_Update (played picker_script)
  /\ (currentNS (after picker_script) = "default"
      \/ currentNS (after picker_script) ∈ namespaces (after picker_script)).
Proof.
  assert (reachable O count_Update (played picker_script)) as Hreach.
  { apply (drive_sound count_Update picker_script). vm_compute. reflexivity. }
  split; [exact Hreach|].
  exact (current_namespace_is_listed O count_Update _ Hreach).
Defined.

End model.

(** ** Facts about the listing functions (types.go, pods.go, services.go) *)

Module listing.
Import resources resources.corev1 model.

Lemma append_cons (ch : Ascii.ascii) (a b : string) :
  String ch a +:+ b = String ch (a +:+ b).
Proof. reflexivity. Qed.

Lemma append_assoc (a b c : string) : (a +:+ b) +:+ c = a +:+ (b +:+ c).
Proof. induction a as [|ch a IH]; [done|]. by rewrite !append_cons, IH. Qed.

Lemma append_nil_r (a : string) : a +:+ "" = a.
Proof. induction a as [|ch a IH]; [done|]. by rewrite append_cons, IH. Qed.

Lemma append_eq_nil (a b : string) : a +:+ b = "" -> a = "" /\ b = "".
Proof. destruct a; simpl; [done | discriminate]. Qed.

(** A loop that appends one converted element per pass builds the mapped
    list. *)
Lemma fold_left_snoc {A B : Type} (f : A -> B) (xs : list A) (acc : list B) :
  fold_left (fun acc x => acc ++ [f x]) xs acc = acc ++ (f <$> xs).
Proof.
  revert acc. induction xs as [|x xs IH]; intros acc; simpl.
  - by rewrite app_nil_r.
  - rewrite IH. by rewrite <- app_assoc.
Qed.

(** *** FormatPortsForDisplay *)

Lemma loop_text (port : ServicePort.t) (result : string) :
  (if 0 <? ServicePort.NodePort port then
     result +:+ (pretty (ServicePort.Port port) +:+ ":"
                 +:+ pretty (ServicePort.NodePort port) +:+ "/"
                 +:+ ServicePort.Protocol port)
   else
     result +:+ (pretty (ServicePort.Port port) +:+ "/"
                 +:+ ServicePort.Protocol port))
  = result +:+ port_text port.
Proof. unfold port_text. by destruct (0 <? ServicePort.NodePort port). Qed.

Lemma FormatPorts_loop_join (i : Z) (ports : list ServicePort.t) (result : string) :
  0 <= i ->
  FormatPorts_loop i ports result
  = result +:+ match ports with
               | [] => ""
               | _ => (if 0 <? i then ", " else "")
                      +:+ String.concat ", " (port_text <$> ports)
               end.
Proof.
  revert i result. induction ports as [|port rest IH]; intros i result Hi.
  - simpl. by rewrite append_nil_r.
  - cbn [FormatPorts_loop]. rewrite loop_text, IH by lia.
    destruct (Z.ltb_spec 0 (i + 1)); [|lia].
    destruct (0 <? i); destruct rest as [|port' rest]; simpl;
      rewrite ?append_nil_r, ?append_assoc; simpl; try done.
Qed.

Lemma port_text_nonempty (port : ServicePort.t) : port_text port ≠ "".
Proof.
  unfold port_text. destruct (0 <? ServicePort.NodePort port);
    intros [_ Hrest]%append_eq_nil; discriminate Hrest.
Qed.

Lemma FormatPortsForDisplay_join_eq (ports : list ServicePort.t) :
  FormatPortsForDisplay ports = String.concat ", " (port_text <$> ports).
Proof.
  unfold FormatPortsForDisplay. destruct ports as [|port rest]; [done|].
  destruct (Z.eqb_spec (Z.of_nat (length (port :: rest))) 0) as [Hz|_];
    [simpl in Hz; lia|].
  by rewrite FormatPorts_loop_join.
Qed.

(** X13: [FormatPortsForDisplay] joins the texts of the ports, in order,
    with ", ": "port/protocol", or "port:nodePort/protocol" when the node
    port is positive.  The text is empty for the empty list only. *)
Theorem FormatPortsForDisplay_join (ports : list ServicePort.t) :
  FormatPortsForDisplay ports = String.concat ", " (port_text <$> ports)
  /\ (FormatPortsForDisplay ports = "" <-> ports = []).
Proof.
  split; [apply FormatPortsForDisplay_join_eq|].
  rewrite FormatPortsForDisplay_join_eq. split; [|by intros ->].
  destruct ports as [|port [|port' rest]]; [done|..]; simpl; intros Hnil.
  - by destruct (port_text_nonempty port).
  - apply append_eq_nil in Hnil as [Hnil _]. by destruct (port_text_nonempty port).
Qed.

(** *** GetServices *)

Section Services.
Variable ageStr : Z -> string.

(** X14: the external address that [GetServices] reports is never the
    empty string, and of the load-balancer entries only the first one is
    looked at. *)
Theorem externalIP_never_empty (svc : Service) :
  externalIP_of svc ≠ ""
  /\ ExternalIP (service_info ageStr svc) = externalIP_of svc
  /\ forall ingress0 others,
      Service_Ingress svc = ingress0 :: others ->
      externalIP_of svc
      = if negb (String.eqb (Ingress_IP ingress0) "") then Ingress_IP ingress0
        else if negb (String.eqb (Ingress_Hostname ingress0) "")
             then Ingress_Hostname ingress0
             else "<none>".
Proof.
  split; [|split; [done|]].
  - unfold externalIP_of. destruct (Service_Ingress svc) as [|ingress0 ?].
    + by destruct (_ || _).
    + destruct (String.eqb_spec (Ingress_IP ingress0) ""); simpl; [|done].
      by destruct (String.eqb_spec (Ingress_Hostname ingress0) "").
  - intros ingress0 others Hin. unfold externalIP_of. by rewrite Hin.
Qed.

(** X15: a successful listing gives one entry per service, in the order of
    the API answer, with the name, namespace, type and cluster address of
    the service, and a ports text that joins the service's ports in order;
    a failed listing gives no entry and the wrapped error, whatever items
    came with it. *)
Theorem GetServices_lists (items : list Service) :
  (GetServices ageStr (items, None)).2 = None
  /\ (GetServices ageStr (items, None)).1 = service_info ageStr <$> items
  /\ length (GetServices ageStr (items, None)).1 = length items
  /\ sName <$> (GetServices ageStr (items, None)).1 = Service_Name <$> items
  /\ (forall svc, svc ∈ items ->
       Ports (service_info ageStr svc)
       = String.concat ", " (port_text <$> (listed_port <$> Service_Ports svc)))
  /\ (forall e, GetServices ageStr (items, Some e)
                = ([], Some ("error fetching services: " +:+ e))).
Proof.
  assert ((GetServices ageStr (items, None)).1 = service_info ageStr <$> items) as Hmap.
  { unfold GetServices. simpl. by rewrite fold_left_snoc. }
  split; [done|]. split; [done|]. rewrite Hmap.
  split; [by rewrite length_fmap|].
  split; [by rewrite <- list_fmap_compose|].
  split; [|done]. intros svc _. unfold service_info. simpl.
  rewrite (fold_left_snoc listed_port).
  apply FormatPortsForDisplay_join_eq.
Qed.

End Services.

(** *** GetPods *)

Section Pods.
Variable ageStr : Z -> string.

(** X16: the readiness, state and restart count that [GetPods] reports for
    a container are those of the first status that carries the
    container's name (running before waiting before terminated); without
    such a status the container is reported not ready, with no state and
    no restart. *)
Theorem container_status_first (statuses : list ContainerStatus) (name : string) :
  ((forall status, status ∈ statuses -> ContainerStatus_Name status ≠ name) ->
   container_status statuses name = (false, "", 0))
  /\ (forall before status rest,
      statuses = before ++ status :: rest ->
      ContainerStatus_Name status = name ->
      (forall earlier, earlier ∈ before -> ContainerStatus_Name earlier ≠ name) ->
      container_status statuses name
      = (ContainerStatus_Ready status, state_text status,
         ContainerStatus_RestartCount status)).
Proof.
  split.
  - induction statuses as [|st sts IH]; intros Hnone; simpl; [done|].
    destruct (String.eqb_spec (ContainerStatus_Name st) name) as [Heq|_].
    + destruct (Hnone st); [left | done].
    + apply IH. intros status Hin. apply Hnone. by right.
  - intros before status rest -> Hname Hfirst.
    induction before as [|b before IH]; simpl.
    + destruct (String.eqb_spec (ContainerStatus_Name status) name); done.
    + destruct (String.eqb_spec (ContainerStatus_Name b) name) as [Heq|_].
      * destruct (Hfirst b); [left | done].
      * apply IH. intros earlier Hin. apply Hfirst. by right.
Qed.

Lemma env_step_lookup (envVars : gmap string string) (env : EnvVar) (n : string) :
  env_step envVars env !! n
  = match (if decide (EnvVar_Name env = n) then env_text env else None) with
    | Some v => Some v
    | None => envVars !! n
    end.
Proof.
  unfold env_step, env_text.
  destruct (negb (String.eqb (EnvVar_Value env) ""));
    [|destruct (non_nil (EnvVar_ValueFrom env))];
    destruct (decide (EnvVar_Name env = n)) as [<-|Hne]; simpl;
    by rewrite ?lookup_insert_eq, ?lookup_insert_ne.
Qed.

Lemma fold_env_lookup (envs : list EnvVar) (envVars : gmap string string) (n : string) :
  fold_left env_step envs envVars !! n
  = match last (omap (fun env => if decide (EnvVar_Name env = n)
                                 then env_text env else None) envs) with
    | Some v => Some v
    | None => envVars !! n
    end.
Proof.
  revert envVars. induction envs as [|env envs IH] using rev_ind; intros envVars.
  - done.
  - rewrite fold_left_app. simpl. rewrite env_step_lookup, omap_app, last_app. simpl.
    destruct (decide (EnvVar_Name env = n)); [destruct (env_text env)|]; simpl; auto.
Qed.

(** X17: the environment map that [GetPods] reports for a container holds,
    under each name, what the last entry of that name with a literal value
    or a value source contributes: the literal value, or "[from source]";
    entries with neither leave no trace, and no name is mapped to the
    empty string. *)
Theorem environment_last_entry_wins (envs : list EnvVar) (n : string) :
  environment envs !! n
  = last (omap (fun env => if decide (EnvVar_Name env = n)
                           then env_text env else None) envs)
  /\ (forall v, environment envs !! n = Some v ->
       v ≠ ""
       /\ exists env, env ∈ envs /\ EnvVar_Name env = n /\ env_text env = Some v).
Proof.
  assert (environment envs !! n
          = last (omap (fun env => if decide (EnvVar_Name env = n)
                                   then env_text env else None) envs)) as Hlast.
  { unfold environment. rewrite fold_env_lookup. by destruct (last _). }
  split; [done|]. rewrite Hlast. intros v Hv.
  assert (v ∈ omap (fun env => if decide (EnvVar_Name env = n)
                               then env_text env else None) envs) as Hin.
  { apply last_Some in Hv as [l' ->]. apply elem_of_app. right. by left. }
  apply list_elem_of_omap in Hin as (env & Hin & Henv).
  destruct (decide (EnvVar_Name env = n)) as [Hn|]; [|done].
  split; [|eauto].
  unfold env_text in Henv.
  destruct (String.eqb_spec (EnvVar_Value env) ""); simpl in Henv.
  - destruct (non_nil _); by simplify_eq.
  - by simplify_eq.
Qed.

(** X18: a successful listing gives one entry per pod, in the order of the
    API answer, and each entry lists one container per container of the
    pod, in order, with its name and image; a failed listing gives no
    entry and the wrapped error, whatever items came with it. *)
Theorem GetPods_lists (items : list Pod) :
  (GetPods ageStr (items, None)).2 = None
  /\ (GetPods ageStr (items, None)).1 = pod_info ageStr <$> items
  /\ length (GetPods ageStr (items, None)).1 = length items
  /\ Name <$> (GetPods ageStr (items, None)).1 = Pod_Name <$> items
  /\ (forall pod,
       Containers (pod_info ageStr pod)
       = container_info (Pod_ContainerStatuses pod) <$> Pod_Containers pod
       /\ cName <$> Containers (pod_info ageStr pod)
          = Container_Name <$> Pod_Containers pod
       /\ Image <$> Containers (pod_info ageStr pod)
          = Container_Image <$> Pod_Containers pod)
  /\ (forall e, GetPods ageStr (items, Some e)
                = ([], Some ("error fetching pods: " +:+ e))).
Proof.
  assert ((GetPods ageStr (items, None)).1 = pod_info ageStr <$> items) as Hmap.
  { unfold GetPods. simpl. by rewrite fold_left_snoc. }
  split; [done|]. split; [done|]. rewrite Hmap.
  split; [by rewrite length_fmap|].
  split; [by rewrite <- list_fmap_compose|].
  split; [|done]. intros pod.
  assert (Containers (pod_info ageStr pod)
          = container_info (Pod_ContainerStatuses pod) <$> Pod_Containers pod) as ->.
  { unfold pod_info. simpl. by rewrite fold_left_snoc. }
  split; [done|]. rewrite <- !list_fmap_compose.
  split; apply list_fmap_ext; intros i container _; unfold container_info; simpl;
    by destruct (container_status _ _) as [[? ?] ?].
Qed.

End Pods.

(** *** From the API answers to the model *)

Section Snapshot.
Context {spinner_Model spinner_TickMsg spinner_Cmd : Type}.
Variable spinner_Update :
  spinner_Model -> @Msg spinner_TickMsg -> spinner_Model * option spinner_Cmd.
Variable ageStr : Z -> string.

(** X19: the snapshot fetch end to end.  If listing the pods fails, the
    services are not looked at and the model's error text becomes "Error
    fetching resources: error fetching pods: ..."; if listing the services
    fails, the pods just listed are dropped and the error text becomes
    "Error fetching resources: error fetching services: ..."; in both
    cases the old snapshot stays.  If both succeed the new snapshot has
    one entry per pod and per service of the answers, in order, and the
    error text is as it was.  In all three cases [loading] becomes false,
    nothing is scheduled, no other field changes, and the message is one
    the snapshot command can deliver. *)
Theorem snapshot_fetch_outcome (m : @Model spinner_Model)
    (cl : option client.K8sClient) (ns : string)
    (pods : list Pod * option string) (services : list Service * option string) :
  let msg := getResources_run (GetPods ageStr pods) (GetServices ageStr services) in
  completes (spinner_Model := spinner_Model) (spinner_Cmd := spinner_Cmd)
    (getResources cl ns) msg
  /\ exists m',
      Update spinner_Update m msg = Ok (m', None)
      /\ loading m' = false
      /\ match pods.2, services.2 with
         | Some e, _ =>
             error m' = "Error fetching resources: error fetching pods: " +:+ e
             /\ resourceData m' = resourceData m
             /\ differs_only [F_loading; F_error] m m'
         | None, Some e =>
             error m' = "Error fetching resources: error fetching services: " +:+ e
             /\ resourceData m' = resourceData m
             /\ differs_only [F_loading; F_error] m m'
         | None, None =>
             Pods (resourceData m') = pod_info ageStr <$> pods.1
             /\ Services (resourceData m') = service_info ageStr <$> services.1
             /\ error m' = error m
             /\ differs_only [F_loading; F_resourceData] m m'
         end.
Proof.
  intros msg. split; [apply completes_resources|]. subst msg.
  destruct pods as [items [e|]], services as [sitems [e'|]];
    unfold getResources_run, GetPods, GetServices; cbn;
    rewrite ?fold_left_snoc; eexists; (split; [reflexivity|]);
    cbn; repeat (split; [reflexivity|]); frame.
Qed.

(** X20: the namespace-list fetch end to end.  A successful listing
    stores the names of the namespaces in the order of the API answer and
    schedules the snapshot of the current namespace, with [loading] and
    the error text as they were; a failed one leaves the stored list as it
    was, makes [loading] false, schedules nothing and makes the error text
    "Error fetching namespaces: error fetching namespaces: ...", the error
    being wrapped once by the client and once by the model. *)
Theorem namespaces_fetch_outcome (m : @Model spinner_Model)
    (items : list NamespaceObj) :
  (exists m',
      Update spinner_Update m (getNamespaces_run (client.GetNamespaces (items, None)))
      = Ok (m', Some (getResources (model.client m) (currentNS m)))
      /\ namespaces m' = Namespace_Name <$> items
      /\ message m' = "Fetching resources..."
      /\ loading m' = loading m
      /\ error m' = error m
      /\ differs_only [F_namespaces; F_message] m m')
  /\ forall e, exists m',
      Update spinner_Update m (getNamespaces_run (client.GetNamespaces (items, Some e)))
      = Ok (m', None)
      /\ loading m' = false
      /\ error m' = "Error fetching namespaces: error fetching namespaces: " +:+ e
      /\ namespaces m' = namespaces m
      /\ differs_only [F_loading; F_error] m m'.
Proof.
  split.
  - unfold getNamespaces_run, client.GetNamespaces. cbn.
    rewrite (fold_left_snoc Namespace_Name). eexists. split; [reflexivity|].
    cbn. repeat (split; [reflexivity|]). frame.
  - intros e. eexists. split; [reflexivity|].
    cbn. repeat (split; [reflexivity|]). frame.
Qed.

End Snapshot.

End listing.
